(** * Blink Monitor: the blink-detection loop of [src/Blink_Monitor.py]

    The page keeps its state in [st.session_state] and drives a synchronous
    acquire / detect / minute-quota / timer / render loop.  The embedding
    below follows the script block by block:

    - Python [float] is the kernel's binary64 [float] (IEEE 754, the same
      format CPython uses), with its comparisons ([x > y] is [y < x], every
      comparison with nan is false); Python [int] is [Z].  The integer
      constants [60], [TOTAL_TIME], [REMINDER_DURATION] and the initial
      [reminder_start = 0] only ever meet floats, and are written as the
      floats Python converts them to;
    - [st.session_state] is the record [session_state], threaded explicitly;
    - what the loop reads from the outside world (the camera, the landmark
      model and every [time.time()] call site) is the record [frame_input];
    - what the loop does to the outside world (messages, the rendered
      frame, releasing the camera) is a list of [event]s, oldest first;
    - the two [int(...)] conversions of the loop raise on nan and on an
      infinity; nothing catches them, so they end the script run.

    Of the rendered frame only the blink count and whether the reminder
    glyph is drawn are kept; the "time left" text and the pixels are not
    modelled. *)

From Stdlib Require Import ZArith List Bool Lia Floats String.
From Stdlib Require Import NArith Ascii DecimalString Permutation Sorted.
Import ListNotations.

#[local] Set Warnings "-inexact-float".
#[local] Open Scope float_scope.

(** ** Python values *)

(** [bool(x)] for a Python float: false exactly for [0.0] and [-0.0]
    ([nan] is truthy). *)
Definition float_truthy (x : float) : bool := negb (x =? 0).

(** Truthiness of a value that is either [None] or a float. *)
Definition truthy (o : option float) : bool :=
  match o with
  | None => false
  | Some x => float_truthy x
  end.

(** ** Constants (lines 28-31) *)

Definition BLINK_RATIO : float := 0.4.
Definition TOTAL_TIME : float := 300.           (* 5 * 60 *)
Definition REMINDER_DURATION : float := 10.
Definition NORMAL_MAX : Z := 20.

(** ** Session state (lines 10-25) *)

Record session_state : Type := mkState {
  blink_count : Z;
  eyes_closed : bool;
  open_eye_reference : option float;
  minute_start : float;
  start_time : float;
  show_reminder : bool;
  reminder_start : float;
  camera_active : bool
}.

(** The state a fresh browser session gets; the two arguments are the two
    [time.time()] readings of lines 17 and 19. *)
Definition initial_state (now_minute now_start : float) : session_state :=
  {| blink_count := 0;
     eyes_closed := false;
     open_eye_reference := None;
     minute_start := now_minute;
     start_time := now_start;
     show_reminder := false;
     reminder_start := 0;
     camera_active := false |}.

Definition set_blink_count (n : Z) (s : session_state) : session_state :=
  mkState n (eyes_closed s) (open_eye_reference s) (minute_start s)
          (start_time s) (show_reminder s) (reminder_start s) (camera_active s).

Definition set_eyes_closed (b : bool) (s : session_state) : session_state :=
  mkState (blink_count s) b (open_eye_reference s) (minute_start s)
          (start_time s) (show_reminder s) (reminder_start s) (camera_active s).

Definition set_open_eye_reference (r : option float) (s : session_state)
  : session_state :=
  mkState (blink_count s) (eyes_closed s) r (minute_start s)
          (start_time s) (show_reminder s) (reminder_start s) (camera_active s).

Definition set_minute_start (t : float) (s : session_state) : session_state :=
  mkState (blink_count s) (eyes_closed s) (open_eye_reference s) t
          (start_time s) (show_reminder s) (reminder_start s) (camera_active s).

Definition set_start_time (t : float) (s : session_state) : session_state :=
  mkState (blink_count s) (eyes_closed s) (open_eye_reference s)
          (minute_start s) t (show_reminder s) (reminder_start s)
          (camera_active s).

Definition set_show_reminder (b : bool) (s : session_state) : session_state :=
  mkState (blink_count s) (eyes_closed s) (open_eye_reference s)
          (minute_start s) (start_time s) b (reminder_start s)
          (camera_active s).

Definition set_reminder_start (t : float) (s : session_state)
  : session_state :=
  mkState (blink_count s) (eyes_closed s) (open_eye_reference s)
          (minute_start s) (start_time s) (show_reminder s) t
          (camera_active s).

Definition set_camera_active (b : bool) (s : session_state) : session_state :=
  mkState (blink_count s) (eyes_closed s) (open_eye_reference s)
          (minute_start s) (start_time s) (show_reminder s)
          (reminder_start s) b.

(** ** Control buttons (lines 65-78) *)

(** "Start Camera": the assignments of lines 66-72, in order.
    [reminder_start] is not touched. *)
Definition start_camera (now_minute now_start : float) (s : session_state)
  : session_state :=
  set_show_reminder false
    (set_start_time now_start
      (set_minute_start now_minute
        (set_open_eye_reference None
          (set_eyes_closed false
            (set_blink_count 0
              (set_camera_active true s)))))).

(** "Stop Camera" (line 77). *)
Definition stop_camera (s : session_state) : session_state :=
  set_camera_active false s.

(** ** Blink detection (lines 107-124) *)

(** Line 113: [abs(top.y - bottom.y)] for landmarks 159 and 145. *)
Definition eye_opening (top_y bottom_y : float) : float :=
  abs (top_y - bottom_y).

(** Lines 115-116: the running maximum.  [eye_opening > reference] is
    [reference < eye_opening]. *)
Definition update_reference (s : session_state) (e : float) : session_state :=
  match open_eye_reference s with
  | None => set_open_eye_reference (Some e) s
  | Some r => if r <? e then set_open_eye_reference (Some e) s else s
  end.

(** Which branch of lines 107-124 a frame took. *)
Inductive branch : Type :=
  | NoFace          (* line 107 false *)
  | NoReference     (* line 118 false: no threshold comparison *)
  | BlinkCounted    (* lines 121-122 *)
  | StillClosed     (* line 119 true, line 120 false *)
  | EyesOpen.       (* line 124 *)

(** Lines 118-124. *)
Definition threshold_step (s : session_state) (e : float)
  : session_state * branch :=
  match open_eye_reference s with
  | Some r =>
      if float_truthy r then
        if e <? r * BLINK_RATIO then
          if negb (eyes_closed s) then
            (set_eyes_closed true (set_blink_count (blink_count s + 1)%Z s),
             BlinkCounted)
          else (s, StillClosed)
        else (set_eyes_closed false s, EyesOpen)
      else (s, NoReference)
  | None => (s, NoReference)
  end.

(** Lines 115-124 for one openness sample. *)
Definition blink_detection (s : session_state) (e : float)
  : session_state * branch :=
  threshold_step (update_reference s e) e.

(** Lines 107-124.  [face] is [None] when [results.multi_face_landmarks] is
    falsy, and otherwise the [y] coordinates of landmarks 159 and 145 of the
    first face. *)
Definition detect (s : session_state) (face : option (float * float))
  : session_state * branch :=
  match face with
  | Some (top_y, bottom_y) => blink_detection s (eye_opening top_y bottom_y)
  | None => (s, NoFace)
  end.

(** The detection step folded over a stream of openness samples. *)
Fixpoint detect_samples (s : session_state) (samples : list float)
  : session_state :=
  match samples with
  | [] => s
  | e :: rest => detect_samples (fst (blink_detection s e)) rest
  end.

(** ** What one loop iteration reads from the world *)

(** One field per [time.time()] call site of the loop body; a reading is
    used only when its line is executed. *)
Record frame_input : Type := mkInput {
  read_success : bool;                 (* line 97, [success] *)
  face : option (float * float);       (* lines 104-111 *)
  now_minute_check : float;            (* line 127 *)
  now_reminder_start : float;          (* line 130 *)
  now_minute_start : float;            (* line 133 *)
  now_total : float;                   (* line 136 *)
  now_reminder_check : float;          (* line 169 *)
  now_blink_phase : float              (* line 177 *)
}.

(** ** Minute handling (lines 127-133) *)

Definition minute_due (s : session_state) (i : frame_input) : bool :=
  60 <=? now_minute_check i - minute_start s.

Definition minute_handling (s : session_state) (i : frame_input)
  : session_state :=
  if minute_due s i then
    let s1 :=
      if (blink_count s <? NORMAL_MAX)%Z then
        set_reminder_start (now_reminder_start i) (set_show_reminder true s)
      else s in
    set_minute_start (now_minute_start i) (set_blink_count 0 s1)
  else s.

(** ** Total timer (lines 136-144) *)

Definition session_over (s : session_state) (i : frame_input) : bool :=
  TOTAL_TIME <=? now_total i - start_time s.

(** [int(x)] returns for a finite float only: it raises [ValueError] on
    nan and [OverflowError] on an infinity. *)
Definition int_returns (x : float) : bool := is_finite x.

(** Line 142, [int(total_elapsed)], returns. *)
Definition remaining_defined (s : session_state) (i : frame_input) : bool :=
  int_returns (now_total i - start_time s).

(** ** Gentle reminder (lines 168-191) *)

(** Returns the new state and whether the blinking-eye glyph was drawn on
    this frame; [None] when [int(time.time() * 2)] of line 177 raises. *)
Definition gentle_reminder (s : session_state) (i : frame_input)
  : option (session_state * bool) :=
  if show_reminder s then
    if now_reminder_check i - reminder_start s <=? REMINDER_DURATION then
      if int_returns (now_blink_phase i * 2) then Some (s, true) else None
    else Some (set_show_reminder false s, false)
  else Some (s, false).

(** ** Effects *)

Inductive event : Type :=
  | EvError (msg : string)                       (* [st.error] *)
  | EvSuccess (msg : string)                     (* [st.success] *)
  | EvImage (blinks : Z) (reminder_drawn : bool) (* line 197 *)
  | EvSleep                                      (* line 199 *)
  | EvRelease                                    (* line 201 *)
  | EvClose                                      (* line 202 *)
  | EvRerun                                      (* [st.rerun] *)
  | EvInfo                                       (* line 209 *)
  | EvException.                   (* an uncaught exception ends the run *)

(** How an iteration of the loop ends: at its last line, at a [break], or
    with an exception that nothing catches.  The exceptions followed here
    are those of the script's own [int] conversions; one raised inside a
    call of Streamlit, OpenCV or MediaPipe ends the run in the same way,
    without [camera.release()], and is not among the inputs of a frame. *)
Inductive control : Type := Continue | Break | Raise.

(** ** The loop body (lines 97-199) *)

Definition loop_body (s : session_state) (i : frame_input)
  : control * session_state * list event :=
  if negb (read_success i) then
    (Break, s, [EvError "Failed to access camera"%string])
  else
    let s1 := fst (detect s (face i)) in
    let s2 := minute_handling s1 i in
    if session_over s2 i then
      (Break, set_camera_active false s2,
       [EvSuccess "✅ Session completed! Great job!"%string])
    else if negb (remaining_defined s2 i) then (Raise, s2, [EvException])
    else
      match gentle_reminder s2 i with
      | Some (s3, drawn) =>
          (Continue, s3, [EvImage (blink_count s2) drawn; EvSleep])
      | None => (Raise, s2, [EvException])
      end.

(** ** The loop (line 96) and what follows it (lines 201-206) *)

(** The loop run over the frames the world supplies.  The control of the
    result is [Break] when the loop was left (by its condition or a
    [break]) and [Raise] when an exception ended the script run; [None]
    means the supplied frames ran out while the loop was still going. *)
Fixpoint run_loop (stop_button : bool) (s : session_state)
         (inputs : list frame_input)
  : option (control * session_state * list event) :=
  if camera_active s && negb stop_button then
    match inputs with
    | [] => None
    | i :: rest =>
        match loop_body s i with
        | (Continue, s', evs) =>
            match run_loop stop_button s' rest with
            | Some (c, s'', evs') => Some (c, s'', evs ++ evs')
            | None => None
            end
        | ended => Some ended
        end
    end
  else Some (Break, s, []).

(** Lines 81-216: the camera block of one script run, or the hint shown
    when the session is not active.  After an exception in the loop
    nothing more of the script runs. *)
Definition camera_feed (stop_button : bool) (s : session_state)
           (inputs : list frame_input) : option (session_state * list event) :=
  if camera_active s then
    match run_loop stop_button s inputs with
    | Some (Raise, s', evs) => Some (s', evs)
    | Some (_, s', evs) =>
        let evs' := evs ++ [EvRelease; EvClose] in
        if stop_button then
          Some (set_camera_active false s', evs' ++ [EvRerun])
        else Some (s', evs')
    | None => None
    end
  else Some (s, [EvInfo]).

(** How often the camera was released in a trace. *)
Definition releases (evs : list event) : nat :=
  List.length (filter (fun e => match e with EvRelease => true | _ => false end)
                 evs).

(** ** Maximal runs *)

(** [run_start p l i]: position [i] of [l] satisfies [p] and is the first
    position of [l] or follows a position that does not satisfy [p]; that
    is, a maximal run of consecutive [p]-elements starts at [i]. *)
Definition run_start {A : Type} (p : A -> bool) (l : list A) (i : nat) : bool :=
  match nth_error l i with
  | Some x =>
      p x &&
      match i with
      | O => true
      | S j => match nth_error l j with
               | Some y => negb (p y)
               | None => false
               end
      end
  | None => false
  end.

(** The number of maximal runs of consecutive elements of [l] that satisfy
    [p]: one for each position where such a run starts. *)
Definition maximal_runs {A : Type} (p : A -> bool) (l : list A) : nat :=
  List.length (filter (run_start p l) (seq 0 (List.length l))).

(** The same count, by recursion on the list; [prev] tells whether the
    element before the list satisfies [p]. *)
Fixpoint runs_after {A : Type} (p : A -> bool) (prev : bool) (l : list A)
  : nat :=
  match l with
  | [] => 0
  | x :: rest =>
      (if p x && negb prev then 1 else 0) + runs_after p (p x) rest
  end.

(** The closed-eye test of line 119 against a given reference. *)
Definition below_threshold (r e : float) : bool := e <? r * BLINK_RATIO.

(** The openness samples of a stream of frames that all show a face. *)
Definition openness_samples (faces : list (float * float)) : list float :=
  map (fun f => eye_opening (fst f) (snd f)) faces.

(** The reference a sample is compared with on line 119: after lines
    115-116 have seen the sample, that is the sample itself when the
    reference was unset or below it, and the reference as it was
    otherwise. *)
Definition reference_in_force (r : option float) (e : float) : float :=
  match r with
  | None => e
  | Some r0 => if r0 <? e then e else r0
  end.

(** Each sample of a stream paired with the reference in force for it,
    for a stream that starts under the reference [r]. *)
Fixpoint with_reference (r : option float) (samples : list float)
  : list (float * float) :=
  match samples with
  | [] => []
  | e :: rest =>
      let r' := reference_in_force r e in
      (r', e) :: with_reference (Some r') rest
  end.

(** The sample of a pair lies strictly below 0.4 times its reference. *)
Definition below_own_threshold (p : float * float) : bool :=
  below_threshold (fst p) (snd p).

(** The eyes are flagged closed only under a positive reference. *)
Definition closed_under_positive (s : session_state) : Prop :=
  eyes_closed s = true ->
  exists r, open_eye_reference s = Some r /\ (0 <? r) = true.

(** ** Reading the result of an iteration *)

Definition state_of (r : control * session_state * list event)
  : session_state := snd (fst r).

Definition events_of (r : control * session_state * list event)
  : list event := snd r.

Definition control_of (r : control * session_state * list event)
  : control := fst (fst r).

(** The events of an iteration that goes on to the next one. *)
Definition frame_event (e : event) : Prop :=
  match e with
  | EvImage _ _ | EvSleep => True
  | _ => False
  end.

(** The glyph of lines 170-189 was drawn on a frame of these events. *)
Definition reminder_drawn (evs : list event) : bool :=
  existsb (fun e => match e with EvImage _ true => true | _ => false end)
          evs.

(** ** Notions the statements use *)

(** The frame registers as closed: after the reference update of lines
    115-116, the guard of line 118 and the test of line 119 both hold. *)
Definition registers_closed (s : session_state) (e : float) : bool :=
  match open_eye_reference (update_reference s e) with
  | Some r => float_truthy r && (e <? r * BLINK_RATIO)
  | None => false
  end.

(** [ref_le a b]: the reference [b] is not below the reference [a]; an unset
    reference is below every other. *)
Definition ref_le (a b : option float) : Prop :=
  match a, b with
  | None, _ => True
  | Some x, Some y => x = y \/ (x <? y) = true
  | Some _, None => False
  end.

(** A frame whose landmarks give a zero sample. *)
Definition zero_frame (f : option (float * float)) : Prop :=
  match f with
  | Some (top_y, bottom_y) => eye_opening top_y bottom_y = 0
  | None => False
  end.

(** The minute handling of this iteration activates the reminder (lines
    127-130 all run). *)
Definition activates (s : session_state) (i : frame_input) : bool :=
  let s1 := fst (detect s (face i)) in
  minute_due s1 i && (blink_count s1 <? NORMAL_MAX)%Z.

(** The frame is read with success, the total time counted from [t0] is
    not up, and the clock is such that the [int] conversions of lines 142
    and 177 return: the loop goes on after it. *)
Definition goes_on (t0 : float) (j : frame_input) : Prop :=
  read_success j = true /\
  (TOTAL_TIME <=? now_total j - t0) = false /\
  int_returns (now_total j - t0) = true /\
  int_returns (now_blink_phase j * 2) = true.

(** ** The loop body over a stream of frames *)

(** Lines 107-124 folded over the frames of a stream, with the branch each
    frame took. *)
Fixpoint detect_frames (s : session_state)
         (faces : list (option (float * float)))
  : session_state * list branch :=
  match faces with
  | [] => (s, [])
  | f :: rest =>
      let '(s1, b) := detect s f in
      let '(s2, bs) := detect_frames s1 rest in
      (s2, b :: bs)
  end.

(** The loop body folded over the frames the world supplies, for as long as
    the loop goes on: the state at the point where the loop has left or the
    frames have run out. *)
Fixpoint loop_state (stop_button : bool) (s : session_state)
         (inputs : list frame_input) : session_state :=
  if camera_active s && negb stop_button then
    match inputs with
    | [] => s
    | i :: rest =>
        match loop_body s i with
        | (Continue, s', _) => loop_state stop_button s' rest
        | (_, s', _) => s'
        end
    end
  else s.

(** The loop body over frames none of which activates the reminder or
    leaves the loop; [None] when one does. *)
Fixpoint run_quiet (s : session_state) (frames : list frame_input)
  : option session_state :=
  match frames with
  | [] => Some s
  | i :: rest =>
      if activates s i then None
      else
        match loop_body s i with
        | (Continue, s', _) => run_quiet s' rest
        | _ => None
        end
  end.

(** ** Concrete sessions *)

(** A session started at time 1000. *)
Definition running_session : session_state :=
  start_camera 1000 1000 (initial_state 1000 1000).

(** A frame read with success, showing no face, all of whose clock
    readings are [t]. *)
Definition frame_at (t : float) : frame_input :=
  mkInput true None t t t t t t.

(** A frame whose read fails. *)
Definition failed_read : frame_input :=
  mkInput false None 1001 1001 1001 1001 1001 1001.

(** The session after a first frame processed 60 seconds after its start,
    with no blink counted: the reminder is activated at 1060. *)
Definition after_first_minute : session_state :=
  state_of (loop_body running_session (frame_at 1060)).

(** The same session after frames at 1065 and at 1070: the reminder
    started at 1060 is drawn on both. *)
Definition reminded_at_1070 : session_state :=
  state_of (loop_body
              (state_of (loop_body after_first_minute (frame_at 1065)))
              (frame_at 1070)).

(** Mid-session states with the reference at 0.10 and the eyes open. *)
Definition steady_start : session_state :=
  mkState 0 false (Some 0.10) 0 0 false 0 true.

Definition closing_start : session_state :=
  mkState 7 false (Some 0.10) 0 0 false 0 true.

(** Faces whose third sample, 0.30, raises a reference of 0.10: the
    threshold goes from 0.04 to 0.12, and the fourth sample, 0.05, which
    is not below 0.04, is below it. *)
Definition raised_reference_faces : list (float * float) :=
  [(0.10, 0); (0.05, 0); (0.30, 0); (0.05, 0)].

(** ** The trace of the loop *)

(** The events of the loop body folded over the frames the world supplies,
    up to the point where the loop has left or the frames have run out
    (the companion of [loop_state]). *)
Fixpoint loop_events (stop_button : bool) (s : session_state)
         (inputs : list frame_input) : list event :=
  if camera_active s && negb stop_button then
    match inputs with
    | [] => []
    | i :: rest =>
        match loop_body s i with
        | (Continue, s', evs) => evs ++ loop_events stop_button s' rest
        | (_, _, evs) => evs
        end
    end
  else [].

(** The blink count a rendered frame shows is not negative. *)
Definition shows_count (e : event) : Prop :=
  match e with
  | EvImage n _ => (0 <= n)%Z
  | _ => True
  end.

(** The line-169 reading of a frame falls within [REMINDER_DURATION] of
    the reminder start [t0]. *)
Definition within_reminder (t0 : float) (j : frame_input) : Prop :=
  (now_reminder_check j - t0 <=? REMINDER_DURATION) = true.

(** A started session whose first sample is 0.10, and a face at that
    openness. *)
Definition face_open : option (float * float) := Some (0.10, 0).

Definition face_closed : option (float * float) := Some (0.02, 0).


(** ** The time-left text (lines 50-54, 142-144 and 159) *)

(** [int(x)] for a float: its integer part, rounded toward zero; [None]
    where it raises (nan and the infinities). *)
Definition py_int (x : float) : option Z :=
  match Prim2SF x with
  | S754_zero _ => Some 0%Z
  | S754_finite sign m e =>
      let magnitude :=
        if (0 <=? e)%Z then (Z.pos m * 2 ^ e)%Z
        else (Z.pos m / 2 ^ (- e))%Z in
      Some (if sign then (- magnitude)%Z else magnitude)
  | S754_infinity _ | S754_nan => None
  end.

(** [TOTAL_TIME] where it meets an [int]. *)
Definition TOTAL_TIME_int : Z := 300.

(** [remaining], then [(minutes_left, seconds_left)]: [//] and [%] are the
    floor division and its remainder. *)
Definition time_left (total_elapsed : float) : option (Z * Z) :=
  match py_int total_elapsed with
  | Some n =>
      let remaining := (TOTAL_TIME_int - n)%Z in
      Some ((remaining / 60)%Z, (remaining mod 60)%Z)
  | None => None
  end.

(** [str(z)] for an [int]. *)
Definition py_str (z : Z) : string := NilZero.string_of_int (Z.to_int z).

(** [format(z, "02d")]: at least two characters, zero-padded. *)
Definition format_02d (z : Z) : string :=
  if (0 <=? z)%Z && (z <? 10)%Z then ("0" ++ py_str z)%string
  else py_str z.

(** [f"{minutes_left}:{seconds_left:02d}"]. *)
Definition time_label (minutes_left seconds_left : Z) : string :=
  (py_str minutes_left ++ ":" ++ format_02d seconds_left)%string.

(** Lines 50-53: the time left that the page header shows on a script run
    whose clock reads [now]. *)
Definition header_time_left (s : session_state) (now : float)
  : option (Z * Z) :=
  time_left (now - start_time s).

(** * Blink Analysis: the report text of [src/Blink_Analysis.py]

    [generate_pdf_from_text_and_image] turns the model's answer into the
    list of flowables ([story]) that reportlab lays out.  The embedding
    keeps the list the function builds, call by call; what reportlab does
    with it (and an exception raised inside one of its constructors, which
    cuts the list short) is outside it. *)

(** ** Python strings *)

(** A Python [str]: its code points. *)
Definition pystr : Type := list N.

(** The code points of an ASCII literal. *)
Definition codes (s : string) : pystr :=
  map N_of_ascii (list_ascii_of_string s).

Definition NEWLINE : N := 10.
Definition SPACE : N := 32.
Definition HYPHEN : N := 45.
Definition COLON : N := 58.
Definition BAR : N := 124.

(** [ch.isspace()] for one character, which [str.strip()] and the pattern
    [\s] both use. *)
Definition is_space (c : N) : bool :=
  ((9 <=? c) && (c <=? 13) || (28 <=? c) && (c <=? 32)
   || (c =? 133) || (c =? 160) || (c =? 5760)
   || (8192 <=? c) && (c <=? 8202)
   || (c =? 8232) || (c =? 8233) || (c =? 8239) || (c =? 8287)
   || (c =? 12288))%N.

Fixpoint lstrip (s : pystr) : pystr :=
  match s with
  | c :: rest => if is_space c then lstrip rest else s
  | [] => []
  end.

Definition rstrip (s : pystr) : pystr := rev (lstrip (rev s)).

(** [s.strip()]. *)
Definition strip (s : pystr) : pystr := rstrip (lstrip s).

(** [s.split(sep)] for a one-character separator. *)
Fixpoint split (sep : N) (s : pystr) : list pystr :=
  match s with
  | [] => [[]]
  | c :: rest =>
      if (c =? sep)%N then [] :: split sep rest
      else
        match split sep rest with
        | piece :: pieces => (c :: piece) :: pieces
        | [] => [[c]]
        end
  end.

(** [not s] for a string. *)
Definition is_empty (s : pystr) : bool :=
  match s with
  | [] => true
  | _ :: _ => false
  end.

(** ["|" in s]. *)
Definition has_bar (s : pystr) : bool := existsb (N.eqb BAR) s.

(** ** The story (lines 118-172) *)

Inductive style : Type := title_style | normal_style.

Inductive flowable : Type :=
  | Paragraph (text : pystr) (st : style)
  | Spacer (width height : Z)
  | RLImage (data : list N) (max_width max_height : Z)
  | Table (data : list (list pystr)).

(** A character of the class [[\|\s\-:]]. *)
Definition separator_char (c : N) : bool :=
  ((c =? BAR) || is_space c || (c =? HYPHEN) || (c =? COLON))%N.

(** Line 143: [re.match(r"^[\|\s\-:]+$", row)]. *)
Definition is_separator (row : pystr) : bool :=
  negb (is_empty row) && forallb separator_char row.

(** Line 147: the stripped, non-empty pieces between the bars. *)
Definition row_cells (row : pystr) : list pystr :=
  map strip
      (filter (fun cell => negb (is_empty (strip cell))) (split BAR row)).

(** Lines 140-150, the inner loop, run on the lines from index [i] on:
    [table_data], and the lines from the index it stops at. *)
Fixpoint table_block (lines : list pystr) : list (list pystr) * list pystr :=
  match lines with
  | [] => ([], [])
  | line :: rest =>
      if has_bar (strip line) then
        let row := strip line in
        let '(data, remaining) := table_block rest in
        if is_separator row then (data, remaining)
        else
          match row_cells row with
          | [] => (data, remaining)
          | cells => (cells :: data, remaining)
          end
      else ([], lines)
  end.

(** Lines 152-168: what a table block adds to the story. *)
Definition table_flowables (data : list (list pystr)) : list flowable :=
  match data with
  | [] => []
  | _ => [Table data; Spacer 1 12]
  end.

(** Lines 130-172, the outer loop, run on the lines from index [i] on.
    Every iteration moves [i] forward, so [fuel] bounds the iterations
    left; [text_flowables] starts it with the number of lines. *)
Fixpoint story_lines (fuel : nat) (lines : list pystr) : list flowable :=
  match fuel with
  | O => []
  | S fuel' =>
      match lines with
      | [] => []
      | line :: rest =>
          let stripped := strip line in
          if is_empty stripped then Spacer 1 8 :: story_lines fuel' rest
          else if has_bar stripped
                  && match rest with
                     | next :: _ => has_bar next
                     | [] => false
                     end
          then
            let '(data, remaining) := table_block lines in
            table_flowables data ++ story_lines fuel' remaining
          else Paragraph stripped normal_style :: story_lines fuel' rest
      end
  end.

(** Lines 128-172 for a list of lines. *)
Definition lines_flowables (lines : list pystr) : list flowable :=
  story_lines (List.length lines) lines.

(** Lines 128-172. *)
Definition text_flowables (text_content : pystr) : list flowable :=
  lines_flowables (split NEWLINE text_content).

(** Lines 118-172: the story handed to [doc.build].  [image_bytes] is
    [None] or the bytes of the picture. *)
Definition story (text_content : pystr) (image_bytes : option (list N))
  : list flowable :=
  [Paragraph (codes "Eye Photo + Gemini Notes") title_style; Spacer 1 10]
  ++ match image_bytes with
     | Some (b :: bs) => [RLImage (b :: bs) 440 280; Spacer 1 14]
     | _ => []
     end
  ++ text_flowables text_content.




(** A cell as [row_cells] returns it: not empty, without a bar, without
    white space at either end. *)
Definition clean_cell (cell : pystr) : Prop :=
  cell <> [] /\ has_bar cell = false /\
  lstrip cell = cell /\ rstrip cell = cell.

(** The rows of a table as the story can hold it: every row has a cell,
    and every cell is clean. *)
Definition clean_rows (data : list (list pystr)) : Prop :=
  Forall (fun row => row <> [] /\ Forall clean_cell row) data.

(** Has a character outside of bars, white space, hyphens and colons. *)
Definition has_content (cell : pystr) : bool :=
  existsb (fun c => negb (separator_char c)) cell.

(** A table row as Markdown writes it: [| a | b |]. *)
Definition render_row (cells : list pystr) : pystr :=
  BAR :: List.concat (map (fun cell => SPACE :: cell ++ [SPACE; BAR]) cells).

(** A row of clean cells, one of which has content. *)
Definition table_row (cells : list pystr) : Prop :=
  Forall clean_cell cells /\ existsb has_content cells = true.

(** A line the inner loop passes over: it has a bar, and it is a
    separator row or all of its cells are blank. *)
Definition passed_over (line : pystr) : bool :=
  has_bar (strip line)
  && (is_separator (strip line) || match row_cells (strip line) with
          | [] => true
          | _ :: _ => false
          end).

(** A Markdown table with a separator line and a line after it. *)
Definition report_table : list pystr :=
  [codes "| Sign | Seen |"; codes "|------|:----:|";
   codes "| Blink rate | low |"; codes "Drink water."].

(** * Blink Analysis: the captured frames and the drop-down lists *)

(** ** [sorted] *)

(** [x] placed before the first element it is not greater than. *)
Fixpoint insert_sorted {A : Type} (leb : A -> A -> bool) (x : A)
         (l : list A) : list A :=
  match l with
  | [] => [x]
  | y :: rest => if leb x y then x :: l else y :: insert_sorted leb x rest
  end.

(** [sorted(l)]: the stable ascending arrangement of [l] (Python's sort is
    stable; any stable sort returns the same list). *)
Definition py_sorted {A : Type} (leb : A -> A -> bool) (l : list A)
  : list A :=
  fold_right (insert_sorted leb) [] l.

(** [a <= b] for strings: by code points, a proper prefix first. *)
Fixpoint str_leb (a b : pystr) : bool :=
  match a, b with
  | [], _ => true
  | _ :: _, [] => false
  | x :: a', y :: b' =>
      if (x <? y)%N then true
      else if (x =? y)%N then str_leb a' b' else false
  end.

(** [a == b] for strings. *)
Fixpoint str_eqb (a b : pystr) : bool :=
  match a, b with
  | [], [] => true
  | x :: a', y :: b' => (x =? y)%N && str_eqb a' b'
  | _, _ => false
  end.

(** [a < b] for strings. *)
Definition str_lt (a b : pystr) : Prop := str_leb a b = true /\ a <> b.

(** Consecutive elements are in strictly ascending order. *)
Fixpoint ascending (l : list pystr) : bool :=
  match l with
  | a :: (b :: _) as rest =>
      str_leb a b && negb (str_eqb a b) && ascending rest
  | _ => true
  end.

(** The values of a list without repetition, at their first places
    (pandas' [unique], and a [set] before it is sorted). *)
Fixpoint unique {A : Type} (eqb : A -> A -> bool) (l : list A) : list A :=
  match l with
  | [] => []
  | x :: rest => x :: filter (fun y => negb (eqb x y)) (unique eqb rest)
  end.

(** ** The frames the browser zips (lines 258-288) *)

Definition ZERO_DIGIT : N := 48.

(** [String(i)] for an index. *)
Definition js_string (i : nat) : pystr :=
  codes (NilEmpty.string_of_uint (Nat.to_uint i)).

(** [s.padStart(width, fill)] for a one-character [fill]. *)
Definition pad_start (width : nat) (fill : N) (s : pystr) : pystr :=
  repeat fill (width - List.length s) ++ s.

(** Line 285: [`frame_${String(i).padStart(3, '0')}.jpg`]. *)
Definition frame_name (i : nat) : pystr :=
  codes "frame_" ++ pad_start 3 ZERO_DIGIT (js_string i) ++ codes ".jpg".

(** An archive: its entries in the order they were added, each with its
    name and with what reading it gives: the content, or [None] for an
    entry whose [read] raises (its data fails the CRC check, or it is
    encrypted or compressed by a method [zipfile] lacks). *)
Definition archive : Type := list (pystr * option (list N)).

(** Lines 283-286: one entry per captured frame, stored as it is. *)
Definition js_zip (capturedFrames : list (list N)) : archive :=
  combine (map frame_name (seq 0 (List.length capturedFrames)))
          (map Some capturedFrames).

(** ** The frames the page loads (lines 354-375) *)

Fixpoint starts_with (prefix s : pystr) : bool :=
  match prefix, s with
  | [], _ => true
  | x :: prefix', y :: s' => (x =? y)%N && starts_with prefix' s'
  | _ :: _, [] => false
  end.

(** [s.endswith(suffix)]. *)
Definition ends_with (suffix s : pystr) : bool :=
  starts_with (rev suffix) (rev s).

(** [zip_ref.namelist()]. *)
Definition namelist (a : archive) : list pystr := map fst a.

(** [zip_ref.open(name).read()]: what reading the last entry of that name
    gives; [None] stands for the exception of an entry that cannot be
    read, and for the [KeyError] of a name the archive lacks. *)
Definition zip_read (a : archive) (name : pystr) : option (list N) :=
  match find (fun entry => str_eqb (fst entry) name) (rev a) with
  | Some entry => snd entry
  | None => None
  end.

(** Lines 363-366: the content of each listed file in turn; [None] when
    reading one of them raises. *)
Fixpoint read_all (a : archive) (names : list pystr)
  : option (list (list N)) :=
  match names with
  | [] => Some []
  | name :: rest =>
      match zip_read a name, read_all a rest with
      | Some content, Some contents => Some (content :: contents)
      | _, _ => None
      end
  end.

(** What the upload block does with the file, up to line 369: it reports
    that there is no JPG, it stores the frames in the session state, or an
    exception before that is caught on line 374 and nothing is stored.
    (Showing the first of the stored frames on line 372 is Streamlit's
    work and outside the embedding.) *)
Inductive upload : Type :=
  | NoJpg                                   (* line 361 *)
  | Loaded (frames_bytes : list (list N))   (* lines 368-369 *)
  | ReadError.                              (* line 375, nothing stored *)

(** Lines 356-369 and 374-375; [None] is a file that [zipfile.ZipFile]
    rejects. *)
Definition process_zip (uploaded_zip : option archive) : upload :=
  match uploaded_zip with
  | None => ReadError
  | Some zip_ref =>
      let frame_files :=
        py_sorted str_leb
                  (filter (ends_with (codes ".jpg")) (namelist zip_ref)) in
      match frame_files with
      | [] => NoJpg
      | _ :: _ =>
          match read_all zip_ref frame_files with
          | Some frames_bytes => Loaded frames_bytes
          | None => ReadError
          end
      end
  end.

(** ** The drop-down lists (lines 67-82) *)

(** A cell of the [Number] column after [pd.to_numeric]: an integer, or a
    float that may be nan. *)
Inductive number : Type :=
  | IntNumber (z : Z)
  | FloatNumber (x : float).

(** A row of [countries.csv] as [load_data] returns it.  A cell of a
    text column is [None] when it is missing: [astype(str)] on lines 50-52
    keeps a missing cell missing under pandas 3, and turns it into the
    text [nan] under earlier versions. *)
Record csv_row : Type := mkRow {
  Country : option pystr;
  City : option pystr;
  Currency_Code : option pystr;
  Number : number
}.

(** The data frame: its rows; [df.empty] is [True] without rows. *)
Definition data_frame : Type := list csv_row.

(** [series.dropna()] for a text column: the cells that are there. *)
Fixpoint dropna {A : Type} (cells : list (option A)) : list A :=
  match cells with
  | [] => []
  | Some x :: rest => x :: dropna rest
  | None :: rest => dropna rest
  end.

(** [cell == value] for a cell of a text column: a missing cell equals
    no text. *)
Definition cell_eqb (cell : option pystr) (value : pystr) : bool :=
  match cell with
  | Some text => str_eqb text value
  | None => false
  end.

(** [get_countries]. *)
Definition get_countries (df : data_frame) : list pystr :=
  match df with
  | [] => []
  | _ :: _ => py_sorted str_leb (unique str_eqb (dropna (map Country df)))
  end.

(** [get_cities]; [country] is the value of the first drop-down, [None]
    when that has no option. *)
Definition get_cities (df : data_frame) (country : option pystr)
  : list pystr :=
  match df, country with
  | _ :: _, Some (c :: name) =>
      py_sorted str_leb
        (unique str_eqb
           (dropna
              (map City
                   (filter (fun r => cell_eqb (Country r) (c :: name))
                           df))))
  | _, _ => []
  end.

(** [pd.notna(x)]. *)
Definition notna (x : number) : bool :=
  match x with
  | IntNumber _ => true
  | FloatNumber f => negb (is_nan f)
  end.

(** [int(x)]. *)
Definition number_int (x : number) : option Z :=
  match x with
  | IntNumber z => Some z
  | FloatNumber f => py_int f
  end.

(** [x == y] for two cells. *)
Definition number_eqb (x y : number) : bool :=
  match x, y with
  | IntNumber a, IntNumber b => (a =? b)%Z
  | FloatNumber a, FloatNumber b => (a =? b)%float
  | _, _ => false
  end.

Fixpoint int_all (xs : list number) : option (list Z) :=
  match xs with
  | [] => Some []
  | x :: rest =>
      match number_int x, int_all rest with
      | Some z, Some zs => Some (z :: zs)
      | _, _ => None
      end
  end.

(** [get_numbers_from_file]; [None] when [int] raises. *)
Definition get_numbers_from_file (df : data_frame) : option (list Z) :=
  match df with
  | [] => Some []
  | _ :: _ =>
      let nums := unique number_eqb (filter notna (map Number df)) in
      match int_all (filter notna nums) with
      | Some ints => Some (py_sorted Z.leb (unique Z.eqb ints))
      | None => None
      end
  end.

(** A cell of the column that is not nan. *)
Definition has_number (df : data_frame) (x : number) : Prop :=
  exists r, In r df /\ Number r = x /\ notna x = true.

(** * Properties *)

(** ** The order of binary64 floats *)

Ltac sf_cases :=
  repeat match goal with
  | |- context [(?a ?= ?b)%Z] => destruct (Z.compare_spec a b)
  | H : context [(?a ?= ?b)%Z] |- _ => destruct (Z.compare_spec a b)
  | |- context [(?a ?= ?b)%positive] => destruct (Pos.compare_spec a b)
  | H : context [(?a ?= ?b)%positive] |- _ => destruct (Pos.compare_spec a b)
  end;
  simpl in *; try discriminate; try reflexivity; try lia.

Lemma SFltb_trans (a b c : spec_float) :
  SFltb a b = true -> SFltb b c = true -> SFltb a c = true.
Proof.
  unfold SFltb, SFcompare.
  change (PosDef.Pos.compare_cont Eq) with Pos.compare.
  destruct a as [sa|sa| |sa ma ea], b as [sb|sb| |sb mb eb],
           c as [sc|sc| |sc mc ec];
    try destruct sa; try destruct sb; try destruct sc;
    simpl; intros; try discriminate; try reflexivity; sf_cases.
Qed.

Lemma SFltb_not_leb (a b : spec_float) :
  SFltb a b = true -> SFleb b a = false.
Proof.
  unfold SFltb, SFleb, SFcompare.
  change (PosDef.Pos.compare_cont Eq) with Pos.compare.
  destruct a as [sa|sa| |sa ma ea], b as [sb|sb| |sb mb eb];
    try destruct sa; try destruct sb;
    simpl; intros; try discriminate; try reflexivity; sf_cases.
Qed.

Lemma ltb_trans (x y z : float) :
  (x <? y) = true -> (y <? z) = true -> (x <? z) = true.
Proof. rewrite !ltb_spec. apply SFltb_trans. Qed.

Lemma ltb_not_leb (x y : float) : (x <? y) = true -> (y <=? x) = false.
Proof. rewrite ltb_spec, leb_spec. apply SFltb_not_leb. Qed.

Lemma ltb_irrefl (x : float) : (x <? x) = false.
Proof.
  rewrite ltb_spec. unfold SFltb, SFcompare.
  change (PosDef.Pos.compare_cont Eq) with Pos.compare.
  destruct (Prim2SF x) as [s|s| |s m e]; try destruct s; try reflexivity.
  all: rewrite Z.compare_refl, Pos.compare_refl; reflexivity.
Qed.

(** A falsy reference ([0.0] or [-0.0]) gives a zero threshold, and no
    absolute value lies below it. *)
Lemma abs_not_below_zero_threshold (r x : float) :
  (r =? 0) = true -> (abs x <? r * BLINK_RATIO) = false.
Proof.
  rewrite FloatAxioms.eqb_spec, ltb_spec, mul_spec, abs_spec.
  replace (Prim2SF BLINK_RATIO)
    with (S754_finite false 7205759403792794 (-54))
    by (vm_compute; reflexivity).
  replace (Prim2SF 0) with (S754_zero false) by (vm_compute; reflexivity).
  destruct (Prim2SF r) as [s|s| |s m e]; try destruct s; try discriminate.
  all: destruct (Prim2SF x) as [t|t| |t n f]; intros _; vm_compute;
    reflexivity.
Qed.

(** ** Counting runs *)

Section Runs.
Context {A : Type} (p : A -> bool).

Lemma run_start_shift (x y : A) (l : list A) (j : nat) :
  run_start p (x :: y :: l) (S (S j)) = run_start p (y :: l) (S j).
Proof. reflexivity. Qed.

Lemma count_shift (f g : nat -> bool) (a n : nat) :
  (forall j, a <= j -> f (S j) = g j) ->
  List.length (filter f (seq (S a) n)) = List.length (filter g (seq a n)).
Proof.
  revert a.
  induction n as [|n IH]; intros a Hfg; simpl; [reflexivity|].
  rewrite Hfg by lia.
  destruct (g a); simpl; rewrite IH; auto with arith.
Qed.

Lemma runs_after_tail (x : A) (l : list A) :
  List.length (filter (run_start p (x :: l)) (seq 1 (List.length l)))
  = runs_after p (p x) l.
Proof.
  revert x. induction l as [|y l IH]; intros x; [reflexivity|].
  change (List.length (y :: l)) with (S (List.length l)).
  change (seq 1 (S (List.length l))) with (1%nat :: seq 2 (List.length l)).
  cbn [filter runs_after].
  replace (run_start p (x :: y :: l) 1) with (p y && negb (p x))
    by reflexivity.
  rewrite <- IH.
  assert (Hshift :
    List.length (filter (run_start p (x :: y :: l)) (seq 2 (List.length l)))
    = List.length (filter (run_start p (y :: l)) (seq 1 (List.length l)))).
  { apply count_shift. intros [|j] Hj; [lia|apply run_start_shift]. }
  destruct (p y && negb (p x)); cbn [List.length]; rewrite Hshift;
    reflexivity.
Qed.

Lemma maximal_runs_after (l : list A) :
  maximal_runs p l = runs_after p false l.
Proof.
  destruct l as [|x l]; [reflexivity|].
  unfold maximal_runs. cbn [List.length seq filter runs_after].
  replace (run_start p (x :: l) 0) with (p x)
    by (unfold run_start; simpl; now rewrite andb_true_r).
  rewrite <- runs_after_tail, andb_true_r.
  destruct (p x); reflexivity.
Qed.

End Runs.

Lemma runs_after_none {A : Type} (p : A -> bool) (prev : bool) (l : list A) :
  Forall (fun x => p x = false) l -> runs_after p prev l = 0%nat.
Proof.
  intros H. revert prev.
  induction H as [|x l Hx _ IH]; intros prev; simpl; [reflexivity|].
  rewrite Hx, IH. reflexivity.
Qed.

(** ** What each block of the loop body leaves alone *)

Ltac split_ifs :=
  repeat match goal with
         | |- context [if ?c then _ else _] => destruct c; cbn
         end.

Lemma detect_keeps_clocks (s : session_state) (f : option (float * float)) :
  let s' := fst (detect s f) in
  minute_start s' = minute_start s /\ start_time s' = start_time s /\
  show_reminder s' = show_reminder s /\
  reminder_start s' = reminder_start s /\
  camera_active s' = camera_active s.
Proof.
  destruct s as [n c r ms st sr rs ca].
  destruct f as [[t b]|]; cbn; [|repeat split].
  unfold blink_detection, threshold_step, update_reference; cbn.
  destruct r as [r|]; cbn; split_ifs; repeat split.
Qed.

Lemma update_reference_keeps (s : session_state) (e : float) :
  blink_count (update_reference s e) = blink_count s /\
  eyes_closed (update_reference s e) = eyes_closed s.
Proof.
  unfold update_reference.
  destruct (open_eye_reference s) as [r|]; [destruct (r <? e)|];
    split; reflexivity.
Qed.

Lemma minute_handling_keeps (s : session_state) (i : frame_input) :
  eyes_closed (minute_handling s i) = eyes_closed s /\
  open_eye_reference (minute_handling s i) = open_eye_reference s /\
  start_time (minute_handling s i) = start_time s /\
  camera_active (minute_handling s i) = camera_active s.
Proof.
  unfold minute_handling.
  destruct (minute_due s i); [|repeat split].
  destruct (blink_count s <? NORMAL_MAX)%Z; repeat split.
Qed.

Lemma gentle_reminder_keeps (s : session_state) (i : frame_input)
      (s' : session_state) (drawn : bool) :
  gentle_reminder s i = Some (s', drawn) ->
  blink_count s' = blink_count s /\
  eyes_closed s' = eyes_closed s /\
  open_eye_reference s' = open_eye_reference s /\
  minute_start s' = minute_start s /\
  start_time s' = start_time s /\
  reminder_start s' = reminder_start s /\
  camera_active s' = camera_active s.
Proof.
  unfold gentle_reminder. intros H.
  destruct (show_reminder s).
  - destruct (now_reminder_check i - reminder_start s <=? REMINDER_DURATION).
    + destruct (int_returns (now_blink_phase i * 2)); [|discriminate].
      injection H as <- _. repeat split.
    + injection H as <- _. repeat split.
  - injection H as <- _. repeat split.
Qed.

(** The loop body, exit by exit. *)
Lemma loop_body_cases (s : session_state) (i : frame_input) :
  let s2 := minute_handling (fst (detect s (face i))) i in
  (read_success i = false /\
   loop_body s i = (Break, s, [EvError "Failed to access camera"%string]))
  \/
  (read_success i = true /\ session_over s2 i = true /\
   loop_body s i =
     (Break, set_camera_active false s2,
      [EvSuccess "✅ Session completed! Great job!"%string]))
  \/
  (read_success i = true /\ session_over s2 i = false /\
   loop_body s i = (Raise, s2, [EvException]))
  \/
  (read_success i = true /\ session_over s2 i = false /\
   remaining_defined s2 i = true /\
   exists s3 drawn,
     gentle_reminder s2 i = Some (s3, drawn) /\
     loop_body s i =
       (Continue, s3, [EvImage (blink_count s2) drawn; EvSleep])).
Proof.
  unfold loop_body.
  destruct (read_success i); cbn [negb]; [right|left; split; reflexivity].
  set (s2 := minute_handling _ i). cbv zeta.
  destruct (session_over s2 i); [left; repeat split|right].
  destruct (remaining_defined s2 i); cbn [negb]; [|left; repeat split].
  destruct (gentle_reminder s2 i) as [[s3 drawn]|] eqn:Hg;
    [right|left; repeat split].
  repeat split. exists s3, drawn. split; reflexivity.
Qed.

Lemma loop_body_start_time (s : session_state) (i : frame_input) :
  start_time (minute_handling (fst (detect s (face i))) i) = start_time s.
Proof.
  destruct (minute_handling_keeps (fst (detect s (face i))) i)
    as (_ & _ & -> & _).
  apply (detect_keeps_clocks s (face i)).
Qed.

Lemma loop_body_camera_active (s : session_state) (i : frame_input) :
  camera_active (minute_handling (fst (detect s (face i))) i)
  = camera_active s.
Proof.
  destruct (minute_handling_keeps (fst (detect s (face i))) i)
    as (_ & _ & _ & ->).
  apply (detect_keeps_clocks s (face i)).
Qed.

(** ** The detection step under a reference that does not move *)

Lemma update_reference_fixed (R : float) (s : session_state) (e : float) :
  open_eye_reference s = Some R -> (R <? e) = false ->
  update_reference s e = s.
Proof. unfold update_reference. intros -> ->. reflexivity. Qed.

(** One sample against a truthy reference [R] that it does not exceed:
    the counter goes up exactly when a run of closed samples starts. *)
Lemma blink_detection_fixed (R : float) (s : session_state) (e : float) :
  open_eye_reference s = Some R -> float_truthy R = true ->
  (R <? e) = false ->
  let s' := fst (blink_detection s e) in
  open_eye_reference s' = Some R /\
  eyes_closed s' = below_threshold R e /\
  blink_count s' =
    (blink_count s +
     Z.of_nat (if below_threshold R e && negb (eyes_closed s)
               then 1 else 0))%Z.
Proof.
  intros Href Ht Hle. unfold blink_detection.
  rewrite (update_reference_fixed R) by assumption.
  unfold threshold_step, below_threshold. rewrite Href, Ht.
  destruct (e <? R * BLINK_RATIO); [destruct (eyes_closed s) eqn:Hc|];
    cbn; rewrite ?Href, ?Hc; repeat split; lia.
Qed.

Lemma detect_samples_fixed (R : float) (samples : list float) :
  float_truthy R = true ->
  Forall (fun e => (R <? e) = false) samples ->
  forall s, open_eye_reference s = Some R ->
  blink_count (detect_samples s samples) =
    (blink_count s +
     Z.of_nat (runs_after (below_threshold R) (eyes_closed s) samples))%Z.
Proof.
  intros Ht H. induction H as [|e l He _ IH]; intros s Href; simpl.
  - lia.
  - destruct (blink_detection_fixed R s e Href Ht He) as (Href' & Hc & Hn).
    rewrite (IH _ Href'), Hn, Hc.
    destruct (below_threshold R e && negb (eyes_closed s)); lia.
Qed.

(** With a falsy reference ([0.0] or [-0.0]) that the sample does not
    exceed, lines 118-124 are skipped. *)
Lemma blink_detection_falsy (R : float) (s : session_state) (e : float) :
  open_eye_reference s = Some R -> float_truthy R = false ->
  (R <? e) = false ->
  blink_detection s e = (s, NoReference).
Proof.
  intros Href Ht Hle. unfold blink_detection.
  rewrite (update_reference_fixed R) by assumption.
  unfold threshold_step. rewrite Href, Ht. reflexivity.
Qed.

Lemma detect_samples_falsy (R : float) (samples : list float) :
  float_truthy R = false ->
  Forall (fun e => (R <? e) = false) samples ->
  forall s, open_eye_reference s = Some R -> detect_samples s samples = s.
Proof.
  intros Ht H. induction H as [|e l He _ IH]; intros s Href; simpl.
  - reflexivity.
  - rewrite (blink_detection_falsy R s e Href Ht He). now apply IH.
Qed.

Lemma openness_not_below_falsy (R : float) (faces : list (float * float)) :
  float_truthy R = false ->
  Forall (fun e => below_threshold R e = false) (openness_samples faces).
Proof.
  unfold float_truthy. intros Ht. apply negb_false_iff in Ht.
  induction faces as [|f faces IH]; simpl; constructor; [|exact IH].
  apply abs_not_below_zero_threshold, Ht.
Qed.

(** The first sample of a session becomes the reference, and is then
    treated as any sample under that reference. *)
Lemma blink_detection_first (s : session_state) (e : float) :
  open_eye_reference s = None ->
  blink_detection s e =
  blink_detection (set_open_eye_reference (Some e) s) e.
Proof.
  intros Href.
  assert (H1 : update_reference s e = set_open_eye_reference (Some e) s)
    by (unfold update_reference; now rewrite Href).
  assert (H2 : update_reference (set_open_eye_reference (Some e) s) e
               = set_open_eye_reference (Some e) s)
    by (unfold update_reference; cbn; now rewrite ltb_irrefl).
  unfold blink_detection. rewrite H1, H2. reflexivity.
Qed.

Lemma runs_with_fixed_reference (R : float) (s : session_state)
      (faces : list (float * float)) :
  open_eye_reference s = Some R ->
  Forall (fun e => (R <? e) = false) (openness_samples faces) ->
  blink_count (detect_samples s (openness_samples faces)) =
    (blink_count s +
     Z.of_nat (runs_after (below_threshold R) (eyes_closed s)
                          (openness_samples faces)))%Z.
Proof.
  intros Href Hfix. destruct (float_truthy R) eqn:Ht.
  - apply (detect_samples_fixed R _ Ht Hfix s Href).
  - rewrite (detect_samples_falsy R _ Ht Hfix s Href).
    rewrite runs_after_none by now apply openness_not_below_falsy.
    cbn. lia.
Qed.

(** ** The detection step under the running reference *)

(** A product that rounds under a negative sign is not above an absolute
    value. *)
Lemma abs_not_below_negative_rounded (mx ex : Z) (lx : location)
      (a : spec_float) :
  SFltb (SFabs a) (binary_round_aux prec emax true mx ex lx) = false.
Proof.
  unfold binary_round_aux.
  destruct (shr_fexp prec emax mx ex lx) as [mrs e'].
  destruct (shr_fexp prec emax _ e' loc_Exact) as [mrs' e''].
  destruct (shr_m mrs'); [| destruct (e'' <=? emax - prec)%Z |];
    destruct a as [t|t| |t n f]; reflexivity.
Qed.

(** An absolute value lies below [r * 0.4] only for a positive [r]. *)
Lemma closing_needs_positive_reference (r x : float) :
  (abs x <? r * BLINK_RATIO) = true -> (0 <? r) = true.
Proof.
  rewrite !ltb_spec, mul_spec, abs_spec.
  replace (Prim2SF BLINK_RATIO)
    with (S754_finite false 7205759403792794 (-54))
    by (vm_compute; reflexivity).
  replace (Prim2SF 0) with (S754_zero false) by (vm_compute; reflexivity).
  destruct (Prim2SF r) as [s|s| |s m e]; try destruct s.
  all: try (intros _; reflexivity).
  all: try (destruct (Prim2SF x) as [t|t| |t n f]; vm_compute; discriminate).
  unfold SF64mul, SFmul. cbn [xorb].
  rewrite abs_not_below_negative_rounded. discriminate.
Qed.

Lemma positive_is_truthy (r : float) :
  (0 <? r) = true -> float_truthy r = true.
Proof.
  unfold float_truthy. rewrite ltb_spec, FloatAxioms.eqb_spec.
  replace (Prim2SF 0) with (S754_zero false) by (vm_compute; reflexivity).
  destruct (Prim2SF r) as [s|s| |s m e]; try destruct s;
    try discriminate; reflexivity.
Qed.

Lemma reference_in_force_positive (r e : float) :
  (0 <? r) = true -> (0 <? reference_in_force (Some r) e) = true.
Proof.
  intros Hr. cbn [reference_in_force].
  destruct (r <? e) eqn:Hre; [|exact Hr].
  exact (ltb_trans _ _ _ Hr Hre).
Qed.

Lemma update_reference_in_force (s : session_state) (e : float) :
  let s1 := update_reference s e in
  open_eye_reference s1 = Some (reference_in_force (open_eye_reference s) e)
  /\ eyes_closed s1 = eyes_closed s /\ blink_count s1 = blink_count s.
Proof.
  unfold update_reference, reference_in_force.
  destruct (open_eye_reference s) as [r|] eqn:Href; cbn.
  - destruct (r <? e); cbn; auto.
  - auto.
Qed.

(** One sample of a face against the reference in force for it: the
    counter goes up exactly when a run of closed samples starts. *)
Lemma blink_detection_in_force (s : session_state)
      (top_y bottom_y : float) :
  closed_under_positive s ->
  let e := eye_opening top_y bottom_y in
  let r := reference_in_force (open_eye_reference s) e in
  let s' := fst (blink_detection s e) in
  open_eye_reference s' = Some r /\
  eyes_closed s' = below_threshold r e /\
  blink_count s' =
    (blink_count s +
     Z.of_nat (if below_threshold r e && negb (eyes_closed s)
               then 1 else 0))%Z /\
  closed_under_positive s'.
Proof.
  intros Hinv e r s'.
  destruct (update_reference_in_force s e) as (Href & Hc & Hn).
  fold r in Href.
  assert (Hfalsy : float_truthy r = false -> eyes_closed s = false).
  { intros Ht. destruct (eyes_closed s) eqn:Hcs; [|reflexivity].
    destruct (Hinv Hcs) as (r0 & Hr0 & Hpos).
    pose proof (reference_in_force_positive r0 e Hpos) as Hpos'.
    rewrite <- Hr0 in Hpos'. fold r in Hpos'.
    apply positive_is_truthy in Hpos'. congruence. }
  assert (Hzero : float_truthy r = false -> below_threshold r e = false).
  { intros Ht. apply abs_not_below_zero_threshold.
    unfold float_truthy in Ht. now apply negb_false_iff in Ht. }
  assert (Hpos : below_threshold r e = true -> (0 <? r) = true)
    by apply (closing_needs_positive_reference r (top_y - bottom_y)).
  unfold s', blink_detection, threshold_step, closed_under_positive.
  set (s1 := update_reference s e) in *. clearbody s1.
  rewrite Href. unfold below_threshold in *.
  destruct (float_truthy r);
    [destruct (e <? r * BLINK_RATIO);
     [destruct (eyes_closed s1) eqn:Hc1|]|];
    cbn; rewrite ?Href, ?Hc1, <- ?Hc, ?Hn, ?Hc1.
  - split; [reflexivity|split; [reflexivity|split; [cbn; lia|]]].
    intros _. exists r. auto.
  - split; [reflexivity|split; [reflexivity|split; [cbn; lia|]]].
    intros _. exists r. auto.
  - split; [reflexivity|split; [reflexivity|split; [cbn; lia|]]].
    discriminate.
  - pose proof (Hzero eq_refl) as Hz. unfold e, eye_opening in Hz.
    rewrite Hz, Hc, (Hfalsy eq_refl).
    split; [reflexivity|split; [reflexivity|split; [cbn; lia|]]].
    discriminate.
Qed.

Lemma detect_samples_in_force (faces : list (float * float)) :
  forall s, closed_under_positive s ->
  blink_count (detect_samples s (openness_samples faces)) =
    (blink_count s +
     Z.of_nat (runs_after below_own_threshold (eyes_closed s)
                 (with_reference (open_eye_reference s)
                                 (openness_samples faces))))%Z.
Proof.
  induction faces as [|[top_y bottom_y] faces IH]; intros s Hinv.
  - cbn. lia.
  - cbn [openness_samples map fst snd detect_samples with_reference
         runs_after].
    destruct (blink_detection_in_force s top_y bottom_y Hinv)
      as (Href & Hc & Hn & Hinv').
    fold (openness_samples faces).
    rewrite (IH _ Hinv'), Href, Hc, Hn.
    unfold below_own_threshold. cbn [fst snd].
    rewrite Nat2Z.inj_add. lia.
Qed.

(** C1 (counterexample): the reference is not fixed.  From a reference of
    0.10 and open eyes, the samples 0.10, 0.05, 0.30, 0.05 hold no sample
    below [0.10 * 0.4], so no run of such samples, and yet one blink is
    counted: the third sample raises the reference to 0.30, and the fourth
    is below [0.30 * 0.4]. *)
Lemma blink_counted_under_raised_reference :
  open_eye_reference steady_start = Some 0.10 /\
  eyes_closed steady_start = false /\
  maximal_runs (below_threshold 0.10)
               (openness_samples raised_reference_faces) = 0%nat /\
  blink_count (detect_samples steady_start
                 (openness_samples raised_reference_faces))
  = (blink_count steady_start + 1)%Z /\
  open_eye_reference (detect_samples steady_start
                        (openness_samples raised_reference_faces))
  = Some 0.30.
Proof. repeat split; vm_compute; reflexivity. Qed.

(** C1 (amended, proved): started with the eyes open, the detection step
    adds to the counter the number of maximal runs of consecutive samples
    that lie strictly below 0.4 times the reference in force for them,
    which is the largest sample so far (and the reference the stream
    started under), for every stream of samples.  When no sample exceeds
    the reference [R], whether the stream starts under it or its first
    sample sets it, that is the number of maximal runs strictly below
    [R * 0.4].  From [R = 0.10] the stream 0.10, 0.03, 0.03, 0.11, 0.02
    adds exactly 2 (its fourth sample raises the reference to 0.11). *)
Theorem blink_count_is_maximal_runs :
  (forall (s : session_state) (faces : list (float * float)),
      eyes_closed s = false ->
      blink_count (detect_samples s (openness_samples faces)) =
        (blink_count s +
         Z.of_nat (maximal_runs below_own_threshold
                     (with_reference (open_eye_reference s)
                                     (openness_samples faces))))%Z)
  /\
  (forall (R : float) (s : session_state) (faces : list (float * float)),
      open_eye_reference s = Some R ->
      eyes_closed s = false ->
      Forall (fun e => (R <? e) = false) (openness_samples faces) ->
      blink_count (detect_samples s (openness_samples faces)) =
        (blink_count s +
         Z.of_nat (maximal_runs (below_threshold R)
                                (openness_samples faces)))%Z)
  /\
  (forall (s : session_state) (first : float * float)
          (faces : list (float * float)),
      let R := eye_opening (fst first) (snd first) in
      open_eye_reference s = None ->
      eyes_closed s = false ->
      Forall (fun e => (R <? e) = false) (openness_samples faces) ->
      blink_count (detect_samples s (openness_samples (first :: faces))) =
        (blink_count s +
         Z.of_nat (maximal_runs (below_threshold R)
                                (openness_samples (first :: faces))))%Z)
  /\
  (forall s : session_state,
      open_eye_reference s = Some 0.10 \/ open_eye_reference s = None ->
      eyes_closed s = false ->
      blink_count (detect_samples s [0.10; 0.03; 0.03; 0.11; 0.02]) =
        (blink_count s + 2)%Z).
Proof.
  split; [|split; [|split]].
  - intros s faces Hopen. rewrite maximal_runs_after, <- Hopen.
    apply detect_samples_in_force. intros Hc. congruence.
  - intros R s faces Href Hopen Hfix.
    rewrite maximal_runs_after, <- Hopen.
    now apply runs_with_fixed_reference.
  - intros s first faces R Href Hopen Hfix.
    rewrite maximal_runs_after.
    change (openness_samples (first :: faces))
      with (R :: openness_samples faces).
    cbn [detect_samples]. rewrite (blink_detection_first s R Href).
    change (detect_samples
              (fst (blink_detection (set_open_eye_reference (Some R) s) R))
              (openness_samples faces))
      with (detect_samples (set_open_eye_reference (Some R) s)
              (openness_samples (first :: faces))).
    rewrite (runs_with_fixed_reference R) ; [now rewrite <- Hopen|reflexivity|].
    constructor; [apply ltb_irrefl|exact Hfix].
  - intros [n c r ms st sr rs ca]; cbn [open_eye_reference eyes_closed].
    intros [->| ->] ->; cbv -[Z.add]; lia.
Qed.

Lemma blink_count_is_maximal_runs_witness :
  blink_count
    (detect_samples steady_start
       (openness_samples raised_reference_faces)) = 1%Z
  /\
  blink_count
    (detect_samples steady_start
       (openness_samples [(0.10, 0); (0.03, 0); (0.03, 0); (0.02, 0);
                          (0.10, 0); (0.01, 0)])) = 2%Z.
Proof.
  split.
  - apply (proj1 blink_count_is_maximal_runs steady_start
             raised_reference_faces).
    reflexivity.
  - apply (proj1 (proj2 blink_count_is_maximal_runs) 0.10 steady_start
             [(0.10, 0); (0.03, 0); (0.03, 0); (0.02, 0); (0.10, 0);
              (0.01, 0)]).
    + reflexivity.
    + reflexivity.
    + repeat constructor.
Defined.

(** ** Debouncing *)

(** What lines 115-124 do to the blink state and the counter. *)
Lemma blink_detection_cases (s : session_state) (e : float) :
  let s' := fst (blink_detection s e) in
  match snd (blink_detection s e) with
  | NoFace => False
  | NoReference =>
      registers_closed s e = false /\
      eyes_closed s' = eyes_closed s /\ blink_count s' = blink_count s
  | BlinkCounted =>
      registers_closed s e = true /\ eyes_closed s = false /\
      eyes_closed s' = true /\ blink_count s' = (blink_count s + 1)%Z
  | StillClosed =>
      registers_closed s e = true /\ eyes_closed s = true /\
      eyes_closed s' = true /\ blink_count s' = blink_count s
  | EyesOpen =>
      registers_closed s e = false /\
      eyes_closed s' = false /\ blink_count s' = blink_count s
  end.
Proof.
  destruct (update_reference_keeps s e) as [Hn Hc].
  unfold blink_detection, registers_closed, threshold_step.
  destruct (update_reference s e) as [n c r ms st sr rs ca].
  cbn in Hn, Hc. subst n c. cbn.
  destruct r as [r|]; cbn; [|repeat split].
  destruct (float_truthy r); cbn; [|repeat split].
  destruct (e <? r * BLINK_RATIO); cbn; [|repeat split].
  destruct (eyes_closed s); cbn; repeat split.
Qed.

(** C4 (confirmed): a processed frame increments the counter by one
    exactly when it takes the state from OPEN to CLOSED, and otherwise
    leaves it unchanged, so never on CLOSED to OPEN and never while already
    CLOSED; two consecutive frames that both register as closed, the first
    met with the eyes open, increment the counter once in total. *)
Theorem blink_count_increments_on_closing_only :
  (forall (s : session_state) (face : option (float * float)),
      let s' := fst (detect s face) in
      blink_count s' =
        (blink_count s +
         (if negb (eyes_closed s) && eyes_closed s' then 1 else 0))%Z)
  /\
  (forall (s : session_state) (e1 e2 : float),
      let s1 := fst (blink_detection s e1) in
      let s2 := fst (blink_detection s1 e2) in
      eyes_closed s = false ->
      registers_closed s e1 = true ->
      registers_closed s1 e2 = true ->
      blink_count s1 = (blink_count s + 1)%Z /\
      eyes_closed s1 = true /\
      blink_count s2 = blink_count s1 /\
      eyes_closed s2 = true /\
      blink_count s2 = (blink_count s + 1)%Z).
Proof.
  split.
  - intros s [[t b]|]; cbn.
    + pose proof (blink_detection_cases s (eye_opening t b)) as H.
      destruct (snd (blink_detection s (eye_opening t b)));
        cbn in H; try contradiction.
      * destruct H as (_ & -> & ->). destruct (eyes_closed s); cbn; lia.
      * destruct H as (_ & -> & -> & ->). reflexivity.
      * destruct H as (_ & -> & -> & ->). cbn. lia.
      * destruct H as (_ & -> & ->). rewrite andb_false_r. lia.
    + destruct (eyes_closed s); cbn; lia.
  - intros s e1 e2 s1 s2 Hopen H1 H2.
    pose proof (blink_detection_cases s e1) as A.
    pose proof (blink_detection_cases s1 e2) as B.
    fold s1 in A. fold s2 in B.
    assert (A' : blink_count s1 = (blink_count s + 1)%Z /\
                 eyes_closed s1 = true).
    { destruct (snd (blink_detection s e1)); cbn in A;
        [contradiction| | | |].
      - destruct A as (Hr & _). congruence.
      - destruct A as (_ & _ & -> & ->). split; reflexivity.
      - destruct A as (_ & Hc & _). congruence.
      - destruct A as (Hr & _). congruence. }
    destruct A' as [A1 A2].
    destruct (snd (blink_detection s1 e2)); cbn in B;
      [contradiction| | | |].
    + destruct B as (Hr & _). congruence.
    + destruct B as (_ & Hc & _). congruence.
    + destruct B as (_ & _ & Hc & Hn). repeat split; congruence.
    + destruct B as (Hr & _). congruence.
Qed.

Lemma blink_count_increments_on_closing_only_witness :
  blink_count (fst (blink_detection
                      (fst (blink_detection closing_start 0.03)) 0.02))
  = 8%Z.
Proof.
  refine (proj2 (proj2 (proj2 (proj2
    (proj2 blink_count_increments_on_closing_only closing_start 0.03 0.02
       _ _ _))))); reflexivity.
Defined.

(** ** The reference baseline *)

Lemma ref_le_refl (a : option float) : ref_le a a.
Proof. destruct a; cbn; auto. Qed.

Lemma ref_le_trans (a b c : option float) :
  ref_le a b -> ref_le b c -> ref_le a c.
Proof.
  destruct a as [x|], b as [y|], c as [z|]; cbn; try tauto.
  intros [->|Hxy] [->|Hyz]; auto.
  right. eapply ltb_trans; eassumption.
Qed.

Lemma threshold_step_reference (s : session_state) (e : float) :
  open_eye_reference (fst (threshold_step s e)) = open_eye_reference s.
Proof.
  unfold threshold_step.
  destruct (open_eye_reference s) as [r|] eqn:Hr; [|exact Hr].
  destruct (float_truthy r), (e <? r * BLINK_RATIO), (eyes_closed s);
    cbn; exact Hr.
Qed.

(** Lines 115-116, as the value the reference has afterwards. *)
Lemma update_reference_spec (s : session_state) (e : float) :
  open_eye_reference (update_reference s e) =
    match open_eye_reference s with
    | None => Some e
    | Some r => if r <? e then Some e else Some r
    end.
Proof.
  unfold update_reference.
  destruct (open_eye_reference s) as [r|] eqn:Hr; [|reflexivity].
  destruct (r <? e); [reflexivity|exact Hr].
Qed.

Lemma blink_detection_reference (s : session_state) (e : float) :
  open_eye_reference (fst (blink_detection s e)) =
  open_eye_reference (update_reference s e).
Proof. unfold blink_detection. apply threshold_step_reference. Qed.

Lemma detect_reference_le (s : session_state) (f : option (float * float)) :
  ref_le (open_eye_reference s) (open_eye_reference (fst (detect s f))).
Proof.
  destruct f as [[t b]|]; cbn [detect fst]; [|apply ref_le_refl].
  rewrite blink_detection_reference, update_reference_spec.
  destruct (open_eye_reference s) as [r|]; [|exact I].
  destruct (r <? eye_opening t b) eqn:Hlt;
    [right; exact Hlt|left; reflexivity].
Qed.

Lemma loop_body_reference_le (s : session_state) (i : frame_input) :
  ref_le (open_eye_reference s)
         (open_eye_reference (state_of (loop_body s i))).
Proof.
  pose proof (detect_reference_le s (face i)) as Hd.
  destruct (minute_handling_keeps (fst (detect s (face i))) i)
    as (_ & Hm & _).
  rewrite <- Hm in Hd.
  destruct (loop_body_cases s i)
    as [(_ & ->)|[(_ & _ & ->)|[(_ & _ & ->)
       |(_ & _ & _ & s3 & d & Hg & ->)]]];
    unfold state_of; cbn [fst snd].
  - apply ref_le_refl.
  - exact Hd.
  - exact Hd.
  - destruct (gentle_reminder_keeps _ _ _ _ Hg) as (_ & _ & -> & _).
    exact Hd.
Qed.

Lemma loop_state_reference_le (stop_button : bool)
      (inputs : list frame_input) :
  forall s, ref_le (open_eye_reference s)
                   (open_eye_reference (loop_state stop_button s inputs)).
Proof.
  induction inputs as [|i rest IH]; intros s; cbn [loop_state].
  - destruct (camera_active s && negb stop_button); apply ref_le_refl.
  - destruct (camera_active s && negb stop_button); [|apply ref_le_refl].
    pose proof (loop_body_reference_le s i) as Hb.
    destruct (loop_body s i) as [[[| |] s'] evs]; unfold state_of in Hb;
      cbn [fst snd] in Hb; try exact Hb.
    eapply ref_le_trans; [exact Hb|apply IH].
Qed.

(** C5 (confirmed): a processed sample replaces the reference exactly when
    the reference is unset or the sample exceeds it; over the frames of a
    session the reference never goes down (each later value is equal to or
    greater than each earlier one); and Start Camera sets it back to
    unset. *)
Theorem open_eye_reference_is_running_maximum :
  (forall (s : session_state) (e : float),
      open_eye_reference (fst (blink_detection s e)) =
        match open_eye_reference s with
        | None => Some e
        | Some r => if r <? e then Some e else Some r
        end)
  /\
  (forall (stop_button : bool) (s : session_state)
          (inputs more : list frame_input),
      ref_le (open_eye_reference (loop_state stop_button s inputs))
             (open_eye_reference
                (loop_state stop_button s (inputs ++ more))))
  /\
  (forall (now_minute now_start : float) (s : session_state),
      open_eye_reference (start_camera now_minute now_start s) = None).
Proof.
  split; [|split].
  - intros s e. rewrite blink_detection_reference.
    apply update_reference_spec.
  - intros stop_button s inputs. revert s.
    induction inputs as [|i rest IH]; intros s more.
    + cbn [app].
      replace (loop_state stop_button s []) with s
        by (cbn; now destruct (camera_active s && negb stop_button)).
      apply loop_state_reference_le.
    + cbn [app loop_state].
      destruct (camera_active s && negb stop_button); [|apply ref_le_refl].
      destruct (loop_body s i) as [[[| |] s'] evs];
        [apply IH|apply ref_le_refl|apply ref_le_refl].
  - reflexivity.
Qed.

(** ** Frames without a face *)

(** C9 (confirmed): a frame in which no face is detected takes the
    [NoFace] branch of lines 107-124, which produces no sample and returns
    the session state as it was; at the end of that loop iteration the
    blink state and the reference are those of its start, and so is the
    counter unless the minute handling of the same iteration reset it. *)
Theorem no_face_changes_nothing :
  (forall s : session_state, detect s None = (s, NoFace))
  /\
  (forall (s : session_state) (i : frame_input),
      face i = None ->
      let s' := state_of (loop_body s i) in
      eyes_closed s' = eyes_closed s /\
      open_eye_reference s' = open_eye_reference s /\
      blink_count s' =
        if read_success i && minute_due s i then 0%Z else blink_count s).
Proof.
  split; [reflexivity|].
  intros s i Hface s'. subst s'.
  assert (Hmin : blink_count (minute_handling s i) =
                 if minute_due s i then 0%Z else blink_count s).
  { unfold minute_handling. destruct (minute_due s i); reflexivity. }
  destruct (minute_handling_keeps s i) as (Hc & Hr & _).
  pose proof (loop_body_cases s i) as H. cbv zeta in H.
  rewrite Hface in H. cbn [detect fst] in H.
  destruct H as [(-> & ->)|[(-> & _ & ->)|[(-> & _ & ->)
                |(-> & _ & _ & s3 & d & Hg & ->)]]];
    unfold state_of; cbn [fst snd andb].
  - repeat split.
  - cbn. rewrite Hc, Hr, Hmin. repeat split.
  - rewrite Hc, Hr, Hmin. repeat split.
  - destruct (gentle_reminder_keeps _ _ _ _ Hg) as (-> & -> & -> & _).
    rewrite Hc, Hr, Hmin. repeat split.
Qed.

Lemma no_face_changes_nothing_witness :
  eyes_closed (state_of (loop_body closing_start (frame_at 30)))
    = eyes_closed closing_start /\
  open_eye_reference (state_of (loop_body closing_start (frame_at 30)))
    = open_eye_reference closing_start /\
  blink_count (state_of (loop_body closing_start (frame_at 30))) = 7%Z.
Proof.
  exact (proj2 no_face_changes_nothing closing_start (frame_at 30) eq_refl).
Defined.

(** ** A zero first sample *)

Lemma detect_frames_cons (s : session_state) (f : option (float * float))
      (rest : list (option (float * float))) :
  detect_frames s (f :: rest) =
    (fst (detect_frames (fst (detect s f)) rest),
     snd (detect s f) :: snd (detect_frames (fst (detect s f)) rest)).
Proof.
  cbn [detect_frames]. destruct (detect s f) as [s1 b]. cbn [fst snd].
  destruct (detect_frames s1 rest); reflexivity.
Qed.

(** A zero sample met with a zero reference. *)
Lemma zero_sample_on_zero_reference (s : session_state) :
  open_eye_reference s = Some 0 ->
  blink_detection s 0 = (s, NoReference).
Proof.
  intros Href. apply (blink_detection_falsy 0); auto.
Qed.

(** C10 (confirmed): when the first frame with a face gives the sample
    [0.0], the reference becomes [0.0] and the frame takes the
    [NoReference] branch (line 118 is false, line 119 is not evaluated),
    with every other field of the state unchanged; every further such
    frame takes the same branch and changes nothing, so the blink state and
    the counter stay as they were. *)
Theorem zero_first_sample_skips_detection :
  (forall (s : session_state) (top_y bottom_y : float),
      open_eye_reference s = None ->
      eye_opening top_y bottom_y = 0 ->
      detect s (Some (top_y, bottom_y)) =
        (set_open_eye_reference (Some 0) s, NoReference))
  /\
  (forall (s : session_state) (faces : list (option (float * float))),
      open_eye_reference s = None ->
      faces <> [] ->
      Forall zero_frame faces ->
      detect_frames s faces =
        (set_open_eye_reference (Some 0) s,
         map (fun _ => NoReference) faces)).
Proof.
  assert (first : forall s t b,
            open_eye_reference s = None -> eye_opening t b = 0 ->
            detect s (Some (t, b)) =
              (set_open_eye_reference (Some 0) s, NoReference)).
  { intros s t b Href He. cbn [detect]. rewrite He.
    unfold blink_detection, update_reference. rewrite Href.
    reflexivity. }
  assert (later : forall faces s,
            open_eye_reference s = Some 0 -> Forall zero_frame faces ->
            detect_frames s faces = (s, map (fun _ => NoReference) faces)).
  { induction faces as [|f rest IH]; intros s Href Hz; [reflexivity|].
    inversion Hz as [|f' rest' Hf Hrest]; subst.
    destruct f as [[t b]|]; [|contradiction].
    change (eye_opening t b = 0) in Hf.
    rewrite detect_frames_cons. cbn [detect]. rewrite Hf.
    rewrite (zero_sample_on_zero_reference s Href). cbn [fst snd].
    rewrite (IH s Href Hrest). reflexivity. }
  split; [exact first|].
  intros s [|f rest] Href Hne Hz; [congruence|].
  inversion Hz as [|f' rest' Hf Hrest]; subst.
  destruct f as [[t b]|]; [|contradiction].
  change (eye_opening t b = 0) in Hf.
  rewrite detect_frames_cons, (first s t b Href Hf). cbn [fst snd].
  rewrite (later rest (set_open_eye_reference (Some 0) s) eq_refl Hrest).
  reflexivity.
Qed.

Lemma zero_first_sample_skips_detection_witness :
  detect_frames running_session
                [Some (0.5, 0.5); Some (0.25, 0.25)] =
    (set_open_eye_reference (Some 0)
       running_session,
     [NoReference; NoReference]).
Proof.
  apply (proj2 zero_first_sample_skips_detection
           running_session
           [Some (0.5, 0.5); Some (0.25, 0.25)]).
  - reflexivity.
  - discriminate.
  - repeat constructor.
Defined.

(** ** Minute handling *)

(** C2 (counterexample): the session above, with the next frame processed
    another 60 seconds later (the camera stalled in between).  The reminder
    is still flagged active when that minute is evaluated, and the
    evaluation moves its [reminder_start] from 1060 to 1120: the reminder
    is restarted, and it is drawn again on that frame. *)
Lemma minute_evaluation_restarts_active_reminder :
  show_reminder after_first_minute = true /\
  reminder_start after_first_minute = 1060 /\
  minute_due after_first_minute (frame_at 1120) = true /\
  reminder_start (minute_handling after_first_minute (frame_at 1120)) = 1120 /\
  (reminder_start (minute_handling after_first_minute (frame_at 1120))
     =? reminder_start after_first_minute) = false /\
  loop_body after_first_minute (frame_at 1120) =
    (Continue,
     mkState 0 false None 1120 1000 true 1120 true,
     [EvImage 0 true; EvSleep]).
Proof. repeat split; vm_compute; reflexivity. Qed.

(** C2 (amended, proved): a minute evaluation that finds the reminder
    active leaves the flag and [reminder_start] unchanged when the count
    has reached [NORMAL_MAX], and otherwise activates it again, moving
    [reminder_start] to the current time. *)
Theorem minute_evaluation_on_active_reminder :
  forall (s : session_state) (i : frame_input),
    (60 <=? now_minute_check i - minute_start s) = true ->
    show_reminder s = true ->
    let s' := minute_handling s i in
    show_reminder s' = true /\
    ((NORMAL_MAX <= blink_count s)%Z ->
       reminder_start s' = reminder_start s) /\
    ((blink_count s < NORMAL_MAX)%Z ->
       reminder_start s' = now_reminder_start i).
Proof.
  intros s i Hdue Hact. unfold minute_handling, minute_due. rewrite Hdue.
  destruct (Z.ltb_spec (blink_count s) NORMAL_MAX); cbn;
    repeat split; intros; try lia; auto.
Qed.

Lemma minute_evaluation_on_active_reminder_witness :
  show_reminder (minute_handling after_first_minute (frame_at 1120)) = true /\
  ((NORMAL_MAX <= blink_count after_first_minute)%Z ->
     reminder_start (minute_handling after_first_minute (frame_at 1120))
     = reminder_start after_first_minute) /\
  ((blink_count after_first_minute < NORMAL_MAX)%Z ->
     reminder_start (minute_handling after_first_minute (frame_at 1120))
     = now_reminder_start (frame_at 1120)).
Proof.
  apply (minute_evaluation_on_active_reminder after_first_minute
           (frame_at 1120)); reflexivity.
Defined.

(** C3 (confirmed): when 60 seconds have elapsed since [minute_start], the
    minute handling activates the reminder ([show_reminder = True],
    [reminder_start = now]) exactly when the count [k] is below 20 (with
    [k >= 20] the reminder is left as it was), and in every case resets the
    counter to 0 and [minute_start] to now; the reset is there at the end
    of the loop iteration, whatever the frame showed. *)
Theorem minute_boundary_resets_counter :
  forall (s : session_state) (i : frame_input),
    (60 <=? now_minute_check i - minute_start s) = true ->
    let k := blink_count s in
    let s' := minute_handling s i in
    blink_count s' = 0%Z /\
    minute_start s' = now_minute_start i /\
    ((k < NORMAL_MAX)%Z ->
       show_reminder s' = true /\ reminder_start s' = now_reminder_start i) /\
    ((NORMAL_MAX <= k)%Z ->
       show_reminder s' = show_reminder s /\
       reminder_start s' = reminder_start s) /\
    (read_success i = true ->
       blink_count (state_of (loop_body s i)) = 0%Z /\
       minute_start (state_of (loop_body s i)) = now_minute_start i).
Proof.
  intros s i Hdue k s'. subst k s'.
  assert (Hmin : forall s0, minute_start s0 = minute_start s ->
            blink_count (minute_handling s0 i) = 0%Z /\
            minute_start (minute_handling s0 i) = now_minute_start i).
  { intros s0 H0. unfold minute_handling, minute_due. rewrite H0, Hdue.
    split; reflexivity. }
  split; [apply (Hmin s); reflexivity|].
  split; [apply (Hmin s); reflexivity|].
  unfold minute_handling at 1 2 3 4, minute_due. rewrite Hdue.
  split; [|split].
  - intros Hk. apply Z.ltb_lt in Hk. rewrite Hk. split; reflexivity.
  - intros Hk. apply Z.ltb_ge in Hk. rewrite Hk. split; reflexivity.
  - intros Hread.
    destruct (detect_keeps_clocks s (face i)) as (Hms & _).
    destruct (Hmin _ Hms) as [Hc Hm].
    destruct (loop_body_cases s i)
      as [(H & _)|[(_ & _ & ->)|[(_ & _ & ->)
         |(_ & _ & _ & s3 & d & Hg & ->)]]];
      unfold state_of; cbn [fst snd].
    + congruence.
    + split; assumption.
    + split; assumption.
    + destruct (gentle_reminder_keeps _ _ _ _ Hg) as (-> & _ & _ & -> & _).
      split; assumption.
Qed.

Lemma minute_boundary_resets_counter_witness :
  blink_count (minute_handling after_first_minute (frame_at 1120)) = 0%Z /\
  minute_start (minute_handling after_first_minute (frame_at 1120)) = 1120.
Proof.
  assert (Hdue : (60 <=? now_minute_check (frame_at 1120)
                         - minute_start after_first_minute) = true)
    by reflexivity.
  pose proof (minute_boundary_resets_counter after_first_minute
                (frame_at 1120) Hdue) as H.
  exact (conj (proj1 H) (proj1 (proj2 H))).
Defined.

(** ** The reminder *)

Lemma minute_handling_reminder_start (s : session_state) (i : frame_input) :
  reminder_start (minute_handling (fst (detect s (face i))) i) =
    if activates s i then now_reminder_start i else reminder_start s.
Proof.
  unfold activates, minute_handling. cbv zeta.
  destruct (detect_keeps_clocks s (face i)) as (_ & _ & _ & Hrs & _).
  destruct (minute_due (fst (detect s (face i))) i); cbn [andb];
    [|exact Hrs].
  destruct (blink_count (fst (detect s (face i))) <? NORMAL_MAX)%Z;
    [reflexivity|exact Hrs].
Qed.

(** Only an activation moves [reminder_start]. *)
Lemma loop_body_reminder_start (s : session_state) (i : frame_input) :
  activates s i = false ->
  reminder_start (state_of (loop_body s i)) = reminder_start s.
Proof.
  intros Hno. pose proof (minute_handling_reminder_start s i) as Hm.
  rewrite Hno in Hm.
  destruct (loop_body_cases s i)
    as [(_ & ->)|[(_ & _ & ->)|[(_ & _ & ->)
       |(_ & _ & _ & s3 & d & Hg & ->)]]];
    unfold state_of; cbn [fst snd].
  - reflexivity.
  - exact Hm.
  - exact Hm.
  - destruct (gentle_reminder_keeps _ _ _ _ Hg)
      as (_ & _ & _ & _ & _ & -> & _).
    exact Hm.
Qed.

Lemma run_quiet_reminder_start (frames : list frame_input) :
  forall s s', run_quiet s frames = Some s' ->
               reminder_start s' = reminder_start s.
Proof.
  induction frames as [|i rest IH]; intros s s' Hrun; cbn in Hrun.
  - congruence.
  - destruct (activates s i) eqn:Hno; [discriminate|].
    pose proof (loop_body_reminder_start s i Hno) as Hrs.
    destruct (loop_body s i) as [[[| |] s1] evs]; try discriminate.
    unfold state_of in Hrs. cbn [fst snd] in Hrs.
    rewrite (IH _ _ Hrun). exact Hrs.
Qed.

(** A frame checked more than [REMINDER_DURATION] after [reminder_start]
    does not show the glyph, and clears the flag if it is rendered. *)
Lemma loop_body_reminder_expired (s : session_state) (i : frame_input) :
  activates s i = false ->
  (REMINDER_DURATION <? now_reminder_check i - reminder_start s) = true ->
  reminder_drawn (events_of (loop_body s i)) = false /\
  (control_of (loop_body s i) = Continue ->
   show_reminder (state_of (loop_body s i)) = false).
Proof.
  intros Hno Hlate. pose proof (minute_handling_reminder_start s i) as Hm.
  rewrite Hno in Hm. apply ltb_not_leb in Hlate.
  destruct (loop_body_cases s i)
    as [(_ & ->)|[(_ & _ & ->)|[(_ & _ & ->)
       |(_ & _ & _ & s3 & d & Hg & ->)]]];
    unfold state_of, events_of, control_of; cbn [fst snd];
    try (split; [reflexivity|discriminate]).
  unfold gentle_reminder in Hg. rewrite Hm, Hlate in Hg.
  destruct (show_reminder _) eqn:Hs; injection Hg as <- <-; cbn; auto.
Qed.

(** C7 (confirmed): from a state whose reminder was started at
    [reminder_start s], after any frames that neither activate the
    reminder again nor leave the loop, a frame whose reminder check comes
    more than [REMINDER_DURATION] (10) seconds after that start, and which
    does not itself activate the reminder, does not draw the reminder and
    leaves the flag cleared; whether a minute boundary falls on any of
    these frames plays no part. *)
Theorem reminder_not_drawn_after_duration :
  forall (s : session_state) (frames : list frame_input)
         (sk : session_state) (i : frame_input),
    run_quiet s frames = Some sk ->
    activates sk i = false ->
    (REMINDER_DURATION <? now_reminder_check i - reminder_start s) = true ->
    reminder_drawn (events_of (loop_body sk i)) = false /\
    (control_of (loop_body sk i) = Continue ->
     show_reminder (state_of (loop_body sk i)) = false).
Proof.
  intros s frames sk i Hquiet Hno Hlate.
  apply loop_body_reminder_expired; [exact Hno|].
  rewrite (run_quiet_reminder_start frames s sk Hquiet). exact Hlate.
Qed.

Lemma reminder_not_drawn_after_duration_witness :
  reminder_drawn
    (events_of (loop_body after_first_minute (frame_at 1065))) = true /\
  show_reminder reminded_at_1070 = true /\
  reminder_drawn (events_of (loop_body reminded_at_1070 (frame_at 1071)))
    = false /\
  (control_of (loop_body reminded_at_1070 (frame_at 1071)) = Continue ->
   show_reminder (state_of (loop_body reminded_at_1070 (frame_at 1071)))
   = false).
Proof.
  split; [vm_compute; reflexivity|]. split; [vm_compute; reflexivity|].
  apply (reminder_not_drawn_after_duration after_first_minute
           [frame_at 1065; frame_at 1070] reminded_at_1070 (frame_at 1071));
    vm_compute; reflexivity.
Defined.

(** ** Leaving the loop *)

Lemma run_loop_step (s : session_state) (i : frame_input)
      (rest : list frame_input) :
  camera_active s = true ->
  run_loop false s (i :: rest) =
    match loop_body s i with
    | (Continue, s', evs) =>
        match run_loop false s' rest with
        | Some (c, s'', evs') => Some (c, s'', evs ++ evs')
        | None => None
        end
    | ended => Some ended
    end.
Proof. intros Hact. cbn [run_loop]. rewrite Hact. reflexivity. Qed.

(** C6 (the code at the failing input): with the session active and no
    stop requested, a frame whose read fails ends the loop at once (the
    frames after it are never read), the error message is shown and the
    camera is released once; the session state is exactly what it was, so
    [camera_active] is still [True]. *)
Theorem read_failure_leaves_camera_active :
  forall (s : session_state) (i : frame_input) (rest : list frame_input),
    camera_active s = true ->
    read_success i = false ->
    camera_feed false s (i :: rest) =
      Some (s, [EvError "Failed to access camera"%string;
                EvRelease; EvClose])
    /\ camera_active s = true.
Proof.
  intros s i rest Hact Hread. split; [|exact Hact].
  unfold camera_feed. rewrite Hact, run_loop_step by exact Hact.
  unfold loop_body. rewrite Hread. reflexivity.
Qed.

Lemma read_failure_leaves_camera_active_witness :
  camera_feed false running_session [failed_read; frame_at 1002] =
    Some (running_session,
          [EvError "Failed to access camera"%string; EvRelease; EvClose])
  /\ camera_active running_session = true.
Proof.
  apply (read_failure_leaves_camera_active running_session failed_read
           [frame_at 1002]); reflexivity.
Defined.

Lemma releases_frame_events (evs : list event) :
  Forall frame_event evs -> releases evs = 0%nat.
Proof.
  unfold releases. induction 1 as [|e l He _ IH]; [reflexivity|].
  destruct e; cbn in *; try contradiction; exact IH.
Qed.

Lemma releases_app (a b : list event) :
  releases (a ++ b) = (releases a + releases b)%nat.
Proof. unfold releases. now rewrite filter_app, length_app. Qed.

(** A frame that [goes_on] is followed by the next iteration, with the
    session still active and its start time unchanged. *)
Lemma loop_body_continue (s : session_state) (i : frame_input) :
  goes_on (start_time s) i ->
  exists s' evs,
    loop_body s i = (Continue, s', evs) /\
    camera_active s' = camera_active s /\
    start_time s' = start_time s /\
    Forall frame_event evs.
Proof.
  intros (Hread & Hnot & Hint & Hphase).
  pose proof (loop_body_start_time s i) as Hst.
  pose proof (loop_body_camera_active s i) as Hca.
  unfold loop_body. rewrite Hread. cbn [negb]. cbv zeta.
  set (s2 := minute_handling (fst (detect s (face i))) i) in *.
  unfold session_over, remaining_defined. rewrite Hst, Hnot, Hint.
  cbn [negb]. unfold gentle_reminder. rewrite Hphase.
  destruct (show_reminder s2);
    [destruct (now_reminder_check i - reminder_start s2
               <=? REMINDER_DURATION)|];
    eexists _, _; (split; [reflexivity|]);
    repeat split; try assumption; repeat constructor.
Qed.

(** The loop up to and including the frame at which the total time is
    up. *)
Lemma run_loop_completes (t0 : float) (pre : list frame_input)
      (i : frame_input) (rest : list frame_input) :
  Forall (goes_on t0) pre ->
  read_success i = true ->
  (TOTAL_TIME <=? now_total i - t0) = true ->
  forall s, camera_active s = true -> start_time s = t0 ->
  exists s' evs,
    run_loop false s (pre ++ i :: rest) =
      Some (Break, s',
            evs ++ [EvSuccess "✅ Session completed! Great job!"%string])
    /\ Forall frame_event evs /\ camera_active s' = false.
Proof.
  intros Hpre Hread Hover.
  induction Hpre as [|j pre Hj _ IH]; intros s Hact Hst.
  - cbn [app]. rewrite run_loop_step by exact Hact.
    destruct (loop_body_cases s i)
      as [(H & _)|[(_ & _ & ->)|[(_ & Hno & _)|(_ & Hno & _)]]].
    + congruence.
    + exists (set_camera_active false
                (minute_handling (fst (detect s (face i))) i)), [].
      repeat split. constructor.
    + unfold session_over in Hno.
      rewrite loop_body_start_time, Hst in Hno. congruence.
    + unfold session_over in Hno.
      rewrite loop_body_start_time, Hst in Hno. congruence.
  - cbn [app]. rewrite run_loop_step by exact Hact.
    rewrite <- Hst in Hj.
    destruct (loop_body_continue s j Hj)
      as (s1 & evs1 & -> & Hact1 & Hst1 & Hev1).
    destruct (IH s1) as (s' & evs & -> & Hev & Hdone);
      [congruence|congruence|].
    exists s', (evs1 ++ evs). rewrite app_assoc.
    repeat split; [apply Forall_app; split; assumption|exact Hdone].
Qed.

(** C8 (confirmed): after any number of iterations that go on, the first
    frame at which the elapsed session time has reached [TOTAL_TIME] (300
    seconds) ends the loop: the camera block returns, [camera_active] is
    [False], the success message is shown, and the camera is released
    exactly once (the release is the event after the message). *)
Theorem session_completes_at_total_time :
  forall (s : session_state) (pre : list frame_input) (i : frame_input)
         (rest : list frame_input),
    camera_active s = true ->
    Forall (goes_on (start_time s)) pre ->
    read_success i = true ->
    (TOTAL_TIME <=? now_total i - start_time s) = true ->
    exists (s' : session_state) (evs : list event),
      camera_feed false s (pre ++ i :: rest) =
        Some (s', evs ++ [EvSuccess "✅ Session completed! Great job!"%string;
                          EvRelease; EvClose]) /\
      Forall frame_event evs /\
      camera_active s' = false /\
      releases (evs ++ [EvSuccess "✅ Session completed! Great job!"%string;
                        EvRelease; EvClose]) = 1%nat.
Proof.
  intros s pre i rest Hact Hpre Hread Hover.
  destruct (run_loop_completes (start_time s) pre i rest Hpre Hread Hover
              s Hact eq_refl) as (s' & evs & Hrun & Hev & Hdone).
  exists s', evs. unfold camera_feed. rewrite Hact, Hrun.
  rewrite <- app_assoc. cbn [app].
  repeat split; try assumption.
  rewrite releases_app, (releases_frame_events evs Hev). reflexivity.
Qed.

Lemma session_completes_at_total_time_witness :
  exists (s' : session_state) (evs : list event),
    camera_feed false running_session
      ([frame_at 1060; frame_at 1120] ++ frame_at 1300 :: [frame_at 1301]) =
      Some (s', evs ++ [EvSuccess "✅ Session completed! Great job!"%string;
                        EvRelease; EvClose]) /\
    Forall frame_event evs /\
    camera_active s' = false /\
    releases (evs ++ [EvSuccess "✅ Session completed! Great job!"%string;
                      EvRelease; EvClose]) = 1%nat.
Proof.
  apply (session_completes_at_total_time running_session
           [frame_at 1060; frame_at 1120] (frame_at 1300) [frame_at 1301]).
  - reflexivity.
  - repeat constructor.
  - reflexivity.
  - reflexivity.
Defined.

(** * Further properties of the monitor loop *)

(** ** The counter *)

(** One frame adds one to the counter while closing the eyes, or leaves
    the counter alone. *)
Lemma detect_step (s : session_state) (f : option (float * float)) :
  let s' := fst (detect s f) in
  (blink_count s' = (blink_count s + 1)%Z /\
   eyes_closed s = false /\ eyes_closed s' = true)
  \/
  (blink_count s' = blink_count s /\
   (eyes_closed s' = true -> eyes_closed s = true)).
Proof.
  destruct f as [[t b]|]; cbn [detect fst]; [|right; split; auto].
  pose proof (blink_detection_cases s (eye_opening t b)) as H.
  destruct (snd (blink_detection s (eye_opening t b)));
    cbv beta iota zeta in H.
  - contradiction.
  - destruct H as (_ & Hc & Hn). right. split; [exact Hn|congruence].
  - destruct H as (_ & Ho & Hc & Hn). left. auto.
  - destruct H as (_ & Ho & Hc & Hn). right. auto.
  - destruct H as (_ & Hc & Hn). right. split; [exact Hn|congruence].
Qed.

Lemma minute_handling_blink_count (s : session_state) (i : frame_input) :
  blink_count (minute_handling s i) =
    if minute_due s i then 0%Z else blink_count s.
Proof. unfold minute_handling. destruct (minute_due s i); reflexivity. Qed.

Lemma loop_body_nonneg (s : session_state) (i : frame_input) :
  (0 <= blink_count s)%Z ->
  (0 <= blink_count (state_of (loop_body s i)))%Z /\
  Forall shows_count (events_of (loop_body s i)).
Proof.
  intros Hs.
  assert (H2 : (0 <= blink_count
                       (minute_handling (fst (detect s (face i))) i))%Z).
  { rewrite minute_handling_blink_count.
    destruct (minute_due _ i); [lia|].
    destruct (detect_step s (face i)) as [(-> & _)|(-> & _)]; lia. }
  destruct (loop_body_cases s i)
    as [(_ & ->)|[(_ & _ & ->)|[(_ & _ & ->)
       |(_ & _ & _ & s3 & d & Hg & ->)]]];
    unfold state_of, events_of; cbn [fst snd].
  - split; [exact Hs|repeat constructor].
  - split; [exact H2|repeat constructor].
  - split; [exact H2|repeat constructor].
  - destruct (gentle_reminder_keeps _ _ _ _ Hg) as (-> & _).
    split; [exact H2|]. repeat constructor. exact H2.
Qed.

Lemma loop_nonneg (stop_button : bool) (inputs : list frame_input) :
  forall s, (0 <= blink_count s)%Z ->
    (0 <= blink_count (loop_state stop_button s inputs))%Z /\
    Forall shows_count (loop_events stop_button s inputs).
Proof.
  induction inputs as [|i rest IH]; intros s Hs;
    cbn [loop_state loop_events];
    destruct (camera_active s && negb stop_button);
    try (split; [exact Hs|constructor]).
  destruct (loop_body_nonneg s i Hs) as [H1 H2].
  destruct (loop_body s i) as [[[| |] s'] evs];
    unfold state_of, events_of in H1, H2; cbn [fst snd] in H1, H2;
    try (split; assumption).
  destruct (IH s' H1) as [H3 H4].
  split; [exact H3|]. apply Forall_app. split; assumption.
Qed.

(** X1: in a session begun with Start Camera the blink counter is never
    negative, and neither is any count shown on a rendered frame, whatever
    the frames and the clock. *)
Theorem blink_count_never_negative :
  forall (now_minute now_start : float) (s0 : session_state)
         (stop_button : bool) (inputs : list frame_input),
    let s := start_camera now_minute now_start s0 in
    (0 <= blink_count (loop_state stop_button s inputs))%Z /\
    Forall shows_count (loop_events stop_button s inputs).
Proof.
  intros t1 t2 s0 stop_button inputs s.
  apply loop_nonneg. subst s. cbn. lia.
Qed.

Lemma detect_frames_step (s : session_state) (f : option (float * float))
      (rest : list (option (float * float))) :
  fst (detect_frames s (f :: rest)) =
  fst (detect_frames (fst (detect s f)) rest).
Proof. rewrite detect_frames_cons. reflexivity. Qed.

(** The counting bound with the blink state on both sides. *)
Lemma detect_frames_bound (faces : list (option (float * float))) :
  forall s,
    let s' := fst (detect_frames s faces) in
    (2 * (blink_count s' - blink_count s)
     + (if eyes_closed s then 1 else 0)
     <= Z.of_nat (List.length faces)
        + (if eyes_closed s' then 1 else 0))%Z.
Proof.
  induction faces as [|f rest IH]; intros s.
  - cbn [detect_frames fst List.length Z.of_nat].
    destruct (eyes_closed s); lia.
  - cbv zeta. rewrite detect_frames_step.
    specialize (IH (fst (detect s f))). cbv zeta in IH.
    change (List.length (f :: rest)) with (S (List.length rest)).
    rewrite Nat2Z.inj_succ.
    destruct (detect_step s f) as [(Hn & Ho & Hc)|(Hn & Hc)].
    + rewrite Hc in IH. rewrite Ho. lia.
    + destruct (eyes_closed (fst (detect s f)));
        [rewrite (Hc eq_refl)|destruct (eyes_closed s)];
        destruct (eyes_closed (fst (detect_frames (fst (detect s f)) rest)));
        lia.
Qed.

(** X2: debouncing bounds the count: over any [n] frames the detection
    step counts at most [(n + 1) / 2] blinks, and at most [n / 2] when the
    eyes were closed at the first of them. *)
Theorem blinks_at_most_every_other_frame :
  forall (s : session_state) (faces : list (option (float * float))),
    let added := (blink_count (fst (detect_frames s faces))
                  - blink_count s)%Z in
    let n := Z.of_nat (List.length faces) in
    (0 <= added)%Z /\
    (added <= (n + 1) / 2)%Z /\
    (eyes_closed s = true -> (added <= n / 2)%Z).
Proof.
  intros s faces added n. subst added n.
  pose proof (detect_frames_bound faces s) as H. cbv zeta in H.
  assert (Hge : forall l s0,
             (blink_count s0
              <= blink_count (fst (detect_frames s0 l)))%Z).
  { induction l as [|f rest IH]; intros s0;
      [cbn [detect_frames fst]; lia|].
    rewrite detect_frames_step.
    specialize (IH (fst (detect s0 f))).
    destruct (detect_step s0 f) as [(Hn & _)|(Hn & _)]; lia. }
  specialize (Hge faces s).
  split; [lia|]. split.
  - apply Z.div_le_lower_bound; [lia|].
    destruct (eyes_closed s), (eyes_closed (fst (detect_frames s faces)));
      lia.
  - intros Hc. rewrite Hc in H. apply Z.div_le_lower_bound; [lia|].
    destruct (eyes_closed (fst (detect_frames s faces))); lia.
Qed.

Lemma blinks_at_most_every_other_frame_witness :
  (blink_count
     (fst (detect_frames (set_eyes_closed true steady_start)
             [face_open; face_closed; face_open; face_closed; face_open]))
   - blink_count (set_eyes_closed true steady_start) <= 5 / 2)%Z.
Proof.
  exact (proj2 (proj2 (blinks_at_most_every_other_frame
                         (set_eyes_closed true steady_start)
                         [face_open; face_closed; face_open; face_closed;
                          face_open])) eq_refl).
Defined.

(** ** The reference is the largest sample *)

Lemma SFltb_false_above (a b c : spec_float) :
  SFltb a b = false -> SFltb a c = true -> SFltb c b = false.
Proof.
  unfold SFltb, SFcompare.
  change (PosDef.Pos.compare_cont Eq) with Pos.compare.
  destruct a as [sa|sa| |sa ma ea], b as [sb|sb| |sb mb eb],
           c as [sc|sc| |sc mc ec];
    try destruct sa; try destruct sb; try destruct sc;
    simpl; intros; try discriminate; try reflexivity; sf_cases.
Qed.

(** A sample the reference [a] was not below is not above a greater
    reference either. *)
Lemma ltb_false_above (a b c : float) :
  (a <? b) = false -> (a <? c) = true -> (c <? b) = false.
Proof. rewrite !ltb_spec. apply SFltb_false_above. Qed.

Lemma detect_samples_reference_max (samples : list float) :
  forall (s : session_state) (r : float) (seen : list float),
    open_eye_reference s = Some r ->
    In r seen ->
    Forall (fun e => (r <? e) = false) seen ->
    exists r',
      open_eye_reference (detect_samples s samples) = Some r' /\
      In r' (seen ++ samples) /\
      Forall (fun e => (r' <? e) = false) (seen ++ samples).
Proof.
  induction samples as [|e rest IH]; intros s r seen Href Hin Hall.
  - exists r. rewrite app_nil_r. cbn [detect_samples]. auto.
  - cbn [detect_samples].
    pose proof (blink_detection_reference s e) as Hr.
    rewrite update_reference_spec, Href in Hr.
    replace (seen ++ e :: rest) with ((seen ++ [e]) ++ rest)
      by (rewrite <- app_assoc; reflexivity).
    destruct (r <? e) eqn:Hlt.
    + apply (IH _ e (seen ++ [e]) Hr).
      * apply in_or_app. right. left. reflexivity.
      * apply Forall_app. split.
        -- eapply Forall_impl; [|exact Hall].
           intros x Hx. exact (ltb_false_above r x e Hx Hlt).
        -- constructor; [apply ltb_irrefl|constructor].
    + apply (IH _ r (seen ++ [e]) Hr).
      * apply in_or_app. left. exact Hin.
      * apply Forall_app. split; [exact Hall|].
        constructor; [exact Hlt|constructor].
Qed.

(** X3: from an unset reference (the state Start Camera leaves), after any
    non-empty stream of samples the reference is one of the samples seen
    and no sample seen exceeds it: it is their maximum. *)
Theorem reference_is_largest_sample :
  forall (s : session_state) (e : float) (rest : list float),
    open_eye_reference s = None ->
    exists r,
      open_eye_reference (detect_samples s (e :: rest)) = Some r /\
      In r (e :: rest) /\
      Forall (fun x => (r <? x) = false) (e :: rest).
Proof.
  intros s e rest Href. cbn [detect_samples].
  pose proof (blink_detection_reference s e) as Hr.
  rewrite update_reference_spec, Href in Hr.
  apply (detect_samples_reference_max rest _ e [e] Hr).
  - left. reflexivity.
  - constructor; [apply ltb_irrefl|constructor].
Qed.

Lemma reference_is_largest_sample_witness :
  exists r,
    open_eye_reference
      (detect_samples running_session [0.07; 0.11; 0.02; 0.09]) = Some r /\
    In r [0.07; 0.11; 0.02; 0.09] /\
    Forall (fun x => (r <? x) = false) [0.07; 0.11; 0.02; 0.09].
Proof.
  exact (reference_is_largest_sample running_session 0.07
           [0.11; 0.02; 0.09] eq_refl).
Defined.

(** ** The ways the camera block ends *)





(** ** When the reminder shows *)

Lemma minute_handling_show_reminder (s : session_state) (i : frame_input) :
  show_reminder (minute_handling (fst (detect s (face i))) i) =
    if activates s i then true else show_reminder s.
Proof.
  unfold activates, minute_handling. cbv zeta.
  destruct (detect_keeps_clocks s (face i)) as (_ & _ & Hsr & _).
  destruct (minute_due (fst (detect s (face i))) i); cbn [andb];
    [|exact Hsr].
  destruct (blink_count (fst (detect s (face i))) <? NORMAL_MAX)%Z;
    [reflexivity|exact Hsr].
Qed.

(** Without an activation a cleared flag stays cleared and nothing is
    drawn. *)
Lemma loop_body_no_reminder (s : session_state) (i : frame_input) :
  activates s i = false ->
  show_reminder s = false ->
  show_reminder (state_of (loop_body s i)) = false /\
  reminder_drawn (events_of (loop_body s i)) = false.
Proof.
  intros Hno Hoff.
  pose proof (minute_handling_show_reminder s i) as Hm.
  rewrite Hno, Hoff in Hm.
  destruct (loop_body_cases s i)
    as [(_ & ->)|[(_ & _ & ->)|[(_ & _ & ->)
       |(_ & _ & _ & s3 & d & Hg & ->)]]];
    unfold state_of, events_of; cbn [fst snd]; auto.
  unfold gentle_reminder in Hg. rewrite Hm in Hg.
  injection Hg as <- <-. auto.
Qed.

Lemma run_quiet_no_reminder (frames : list frame_input) :
  forall s sk, run_quiet s frames = Some sk ->
               show_reminder s = false -> show_reminder sk = false.
Proof.
  induction frames as [|j rest IH]; intros s sk Hrun Hoff; cbn in Hrun.
  - congruence.
  - destruct (activates s j) eqn:Hno; [discriminate|].
    destruct (loop_body_no_reminder s j Hno Hoff) as [H1 _].
    destruct (loop_body s j) as [[[| |] s1] evs]; try discriminate.
    exact (IH _ _ Hrun H1).
Qed.

(** X5: after Start Camera the reminder glyph is not drawn on any frame
    until a minute evaluation activates the reminder: over frames without
    an activation the flag stays cleared, whatever the clock reads. *)
Theorem no_reminder_before_activation :
  forall (now_minute now_start : float) (s0 : session_state)
         (frames : list frame_input) (sk : session_state)
         (i : frame_input),
    run_quiet (start_camera now_minute now_start s0) frames = Some sk ->
    activates sk i = false ->
    reminder_drawn (events_of (loop_body sk i)) = false /\
    show_reminder (state_of (loop_body sk i)) = false.
Proof.
  intros t1 t2 s0 frames sk i Hrun Hno.
  assert (Hoff : show_reminder sk = false)
    by (apply (run_quiet_no_reminder frames _ _ Hrun); reflexivity).
  destruct (loop_body_no_reminder sk i Hno Hoff). auto.
Qed.

Lemma no_reminder_before_activation_witness :
  reminder_drawn
    (events_of (loop_body
                  (state_of (loop_body running_session (frame_at 1030)))
                  (frame_at 1059))) = false /\
  show_reminder
    (state_of (loop_body
                 (state_of (loop_body running_session (frame_at 1030)))
                 (frame_at 1059))) = false.
Proof.
  apply (no_reminder_before_activation 1000 1000 (initial_state 1000 1000)
           [frame_at 1030]
           (state_of (loop_body running_session (frame_at 1030)))
           (frame_at 1059)); vm_compute; reflexivity.
Defined.

(** A rendered frame within the duration draws an active reminder and
    keeps it active. *)
Lemma loop_body_reminder_shown (s : session_state) (i : frame_input) :
  activates s i = false ->
  show_reminder s = true ->
  within_reminder (reminder_start s) i ->
  control_of (loop_body s i) = Continue ->
  show_reminder (state_of (loop_body s i)) = true /\
  reminder_drawn (events_of (loop_body s i)) = true.
Proof.
  intros Hno Hon Hin Hgo.
  pose proof (minute_handling_show_reminder s i) as Hm.
  pose proof (minute_handling_reminder_start s i) as Hrs.
  rewrite Hno in Hm, Hrs. rewrite Hon in Hm.
  destruct (loop_body_cases s i)
    as [(_ & Hb)|[(_ & _ & Hb)|[(_ & _ & Hb)
       |(_ & _ & _ & s3 & d & Hg & Hb)]]];
    rewrite Hb in *; unfold control_of in Hgo; cbn [fst snd] in Hgo;
    try discriminate.
  unfold state_of, events_of; cbn [fst snd].
  unfold gentle_reminder in Hg. unfold within_reminder in Hin.
  rewrite Hm, Hrs, Hin in Hg.
  destruct (int_returns (now_blink_phase i * 2)); [|discriminate].
  injection Hg as <- <-. auto.
Qed.

(** X6: while it lasts the reminder is on every rendered frame: from a
    state with the reminder active, over frames that go on without a new
    activation and whose checks all fall within [REMINDER_DURATION] of the
    reminder's start, each rendered frame draws the glyph and leaves the
    reminder active. *)
Theorem reminder_drawn_within_duration :
  forall (s : session_state) (frames : list frame_input)
         (sk : session_state) (i : frame_input),
    show_reminder s = true ->
    run_quiet s frames = Some sk ->
    Forall (within_reminder (reminder_start s)) frames ->
    activates sk i = false ->
    within_reminder (reminder_start s) i ->
    control_of (loop_body sk i) = Continue ->
    reminder_drawn (events_of (loop_body sk i)) = true /\
    show_reminder (state_of (loop_body sk i)) = true.
Proof.
  intros s frames. revert s.
  induction frames as [|j rest IH]; intros s sk i Hon Hrun Hall Hno Hin Hgo.
  - cbn in Hrun. injection Hrun as <-.
    destruct (loop_body_reminder_shown s i Hno Hon Hin Hgo). auto.
  - cbn in Hrun. inversion Hall as [|j' rest' Hj Hrest]; subst.
    destruct (activates s j) eqn:Hnoj; [discriminate|].
    pose proof (loop_body_reminder_start s j Hnoj) as Hrs.
    pose proof (loop_body_reminder_shown s j Hnoj Hon Hj) as Hshown.
    destruct (loop_body s j) as [[[| |] s1] evs] eqn:Hb; try discriminate.
    unfold state_of, control_of in Hrs, Hshown. cbn [fst snd] in Hrs, Hshown.
    destruct (Hshown eq_refl) as [Hon1 _].
    rewrite <- Hrs in Hrest, Hin.
    exact (IH s1 sk i Hon1 Hrun Hrest Hno Hin Hgo).
Qed.

Lemma reminder_drawn_within_duration_witness :
  reminder_drawn (events_of (loop_body reminded_at_1070 (frame_at 1070)))
    = true /\
  show_reminder (state_of (loop_body reminded_at_1070 (frame_at 1070)))
    = true.
Proof.
  apply (reminder_drawn_within_duration after_first_minute
           [frame_at 1065; frame_at 1070] reminded_at_1070 (frame_at 1070));
    try (vm_compute; reflexivity).
  repeat constructor.
Defined.

(** * The time-left text *)

(** ** From a float to its integer part *)

Lemma digits2_pos_bound (m : positive) :
  (2 ^ (Z.pos (digits2_pos m) - 1) <= Z.pos m < 2 ^ Z.pos (digits2_pos m))%Z.
Proof.
  induction m as [m IH|m IH|]; cbn [digits2_pos].
  - rewrite Pos2Z.inj_succ.
    replace (Z.succ (Z.pos (digits2_pos m)) - 1)%Z
      with (Z.succ (Z.pos (digits2_pos m) - 1)) by lia.
    rewrite !Z.pow_succ_r by lia. lia.
  - rewrite Pos2Z.inj_succ.
    replace (Z.succ (Z.pos (digits2_pos m)) - 1)%Z
      with (Z.succ (Z.pos (digits2_pos m) - 1)) by lia.
    rewrite !Z.pow_succ_r by lia. lia.
  - cbn. lia.
Qed.

Lemma Prim2SF_finite_bounds (x : float) (s : bool) (m : positive) (e : Z) :
  Prim2SF x = S754_finite s m e ->
  (Z.pos m < 9007199254740992)%Z /\
  ((-1074 < e)%Z -> (4503599627370496 <= Z.pos m)%Z).
Proof.
  intros Hx. pose proof (Prim2SF_valid x) as Hv. rewrite Hx in Hv.
  cbn [SpecFloat.valid_binary] in Hv.
  unfold bounded, canonical_mantissa in Hv.
  apply andb_prop in Hv. destruct Hv as [Hc _].
  apply Z.eqb_eq in Hc. unfold fexp, emin, prec, emax in Hc.
  pose proof (digits2_pos_bound m) as [Hlo Hhi].
  split.
  - assert (Hd : (Z.pos (digits2_pos m) <= 53)%Z) by lia.
    change 9007199254740992%Z with (2 ^ 53)%Z.
    eapply Z.lt_le_trans; [exact Hhi|]. apply Z.pow_le_mono_r; lia.
  - intros He. assert (Hd : (Z.pos (digits2_pos m) = 53)%Z) by lia.
    rewrite Hd in Hlo. exact Hlo.
Qed.

Lemma py_int_defined (x : float) :
  int_returns x = true <-> exists n, py_int x = Some n.
Proof.
  unfold int_returns, is_finite, is_nan, is_infinity, py_int.
  rewrite !FloatAxioms.eqb_spec, abs_spec.
  replace (Prim2SF infinity) with (S754_infinity false)
    by (vm_compute; reflexivity).
  unfold SFeqb, SFcompare.
  change (PosDef.Pos.compare_cont Eq) with Pos.compare.
  destruct (Prim2SF x) as [s|s| |s m e]; try destruct s; cbn;
    rewrite ?Z.compare_refl, ?Pos.compare_refl; cbn;
    split; intros H; try discriminate; try reflexivity; eauto;
    destruct H as [n H]; discriminate.
Qed.

Lemma py_int_below (x : float) :
  (0 <=? x) = true -> (300 <=? x) = false ->
  exists n, py_int x = Some n /\ (0 <= n <= 299)%Z.
Proof.
  rewrite !leb_spec. intros H0 H300. unfold py_int.
  replace (Prim2SF 0) with (S754_zero false) in H0
    by (vm_compute; reflexivity).
  replace (Prim2SF 300) with (S754_finite false 5277655813324800 (-44))
    in H300 by (vm_compute; reflexivity).
  destruct (Prim2SF x) as [s|s| |s m e] eqn:Hx;
    try destruct s; try discriminate.
  - exists 0%Z. split; [reflexivity|lia].
  - exists 0%Z. split; [reflexivity|lia].
  - destruct (Prim2SF_finite_bounds x _ _ _ Hx) as [Hm _].
    unfold SFleb, SFcompare in H300.
    change (PosDef.Pos.compare_cont Eq) with Pos.compare in H300.
    assert (He : (e < -44)%Z \/ (e = -44 /\ Z.pos m < 5277655813324800)%Z).
    { clear Hm H0 Hx.
      destruct (Z.compare_spec (-44) e) as [He|He|He];
        try discriminate; [right|left; lia].
      destruct (Pos.compare_spec 5277655813324800 m) as [Hc|Hc|Hc];
        try discriminate.
      split; [symmetry; exact He|now apply Pos2Z.pos_lt_pos]. }
    clear H0 H300 Hx.
    assert (Hneg : (0 <=? e)%Z = false) by (apply Z.leb_gt; lia).
    rewrite Hneg. eexists. split; [reflexivity|].
    assert (HP : (35184372088832 <= 2 ^ (- e))%Z \/
                 (2 ^ (- e) = 17592186044416 /\
                  Z.pos m < 5277655813324800)%Z).
    { destruct He as [He|[-> Hlt]]; [left|right; split; [reflexivity|lia]].
      change 35184372088832%Z with (2 ^ 45)%Z.
      apply Z.pow_le_mono_r; lia. }
    clear He Hneg. remember (2 ^ (- e))%Z as P. clear HeqP.
    split.
    + apply Z.div_pos; lia.
    + assert (Z.pos m / P < 300)%Z; [|lia].
      apply Z.div_lt_upper_bound; lia.
Qed.

Lemma py_int_above (x : float) :
  (301 <=? x) = true -> int_returns x = true ->
  exists n, py_int x = Some n /\ (301 <= n)%Z.
Proof.
  rewrite leb_spec. intros H301 Hfin.
  apply py_int_defined in Hfin. destruct Hfin as [n Hn].
  exists n. split; [exact Hn|].
  unfold py_int in Hn.
  replace (Prim2SF 301) with (S754_finite false 5295247999369216 (-44))
    in H301 by (vm_compute; reflexivity).
  destruct (Prim2SF x) as [s|s| |s m e] eqn:Hx;
    try destruct s; try discriminate.
  destruct (Prim2SF_finite_bounds x _ _ _ Hx) as [_ Hm].
  unfold SFleb, SFcompare in H301.
  change (PosDef.Pos.compare_cont Eq) with Pos.compare in H301.
  assert (He : (-44 < e)%Z \/ (e = -44 /\ 5295247999369216 <= Z.pos m)%Z).
  { clear Hm Hx Hn.
    destruct (Z.compare_spec (-44) e) as [He|He|He];
      try discriminate; [right|left; lia].
    destruct (Pos.compare_spec 5295247999369216 m) as [Hc|Hc|Hc];
      try discriminate; (split; [symmetry; exact He|]).
    - rewrite Hc. apply Z.le_refl.
    - apply Pos2Z.pos_le_pos, Pos.lt_le_incl, Hc. }
  clear H301 Hx. cbv zeta in Hn.
  destruct (Z.leb_spec 0 e) as [Hpos|Hneg]; injection Hn as <-.
  - assert (Hm' : (4503599627370496 <= Z.pos m)%Z) by (apply Hm; lia).
    assert (HP : (1 <= 2 ^ e)%Z)
      by (apply Z.lt_pred_le, Z.pow_pos_nonneg; lia).
    clear Hm He Hpos. remember (2 ^ e)%Z as P. clear HeqP.
    change (301 <= Z.pos m * P)%Z.
    assert (Z.pos m * 1 <= Z.pos m * P)%Z
      by (apply Z.mul_le_mono_nonneg_l; lia).
    lia.
  - assert (HP : (0 < 2 ^ (- e))%Z /\
                 ((2 ^ (- e) <= 8796093022208 /\
                   4503599627370496 <= Z.pos m) \/
                  (2 ^ (- e) = 17592186044416 /\
                   5295247999369216 <= Z.pos m))%Z).
    { split; [apply Z.pow_pos_nonneg; lia|].
      destruct He as [He|[-> Hge]]; [left|right; split; [reflexivity|lia]].
      split; [|apply Hm; lia].
      change 8796093022208%Z with (2 ^ 43)%Z.
      apply Z.pow_le_mono_r; lia. }
    clear He Hm Hneg. remember (2 ^ (- e))%Z as P. clear HeqP.
    apply Z.div_le_lower_bound; lia.
Qed.

(** The label of every remaining time the loop can show. *)
Lemma time_label_length (r : Z) :
  (1 <= r <= 300)%Z ->
  String.length (time_label (r / 60) (r mod 60)) = 4%nat.
Proof.
  intros Hr.
  assert (Hall : forallb
            (fun k => Nat.eqb
               (String.length
                  (time_label (Z.of_nat k / 60) (Z.of_nat k mod 60))) 4)
            (seq 1 300) = true) by (vm_compute; reflexivity).
  rewrite forallb_forall in Hall.
  specialize (Hall (Z.to_nat r)). rewrite Z2Nat.id in Hall by lia.
  apply Nat.eqb_eq, Hall, in_seq. lia.
Qed.

(** X7: on every frame the loop renders while the clock is not behind the
    session start, the time left is defined and lies between 0:01 and
    5:00: the seconds are within 0..59, the minutes within 0..5, and the
    label has the four characters of "m:ss". *)
Theorem time_left_on_rendered_frame :
  forall (s : session_state) (i : frame_input),
    control_of (loop_body s i) = Continue ->
    (0 <=? now_total i - start_time s) = true ->
    exists minutes_left seconds_left,
      time_left (now_total i - start_time s)
      = Some (minutes_left, seconds_left) /\
      (0 <= minutes_left <= 5)%Z /\
      (0 <= seconds_left <= 59)%Z /\
      (1 <= 60 * minutes_left + seconds_left <= 300)%Z /\
      String.length (time_label minutes_left seconds_left) = 4%nat.
Proof.
  intros s i Hgo Hfwd.
  assert (Hnot : (TOTAL_TIME <=? now_total i - start_time s) = false).
  { pose proof (loop_body_start_time s i) as Hst.
    destruct (loop_body_cases s i)
      as [(_ & Hb)|[(_ & _ & Hb)|[(_ & _ & Hb)
         |(_ & Hno & _)]]];
      try (rewrite Hb in Hgo; discriminate).
    unfold session_over in Hno. rewrite Hst in Hno. exact Hno. }
  destruct (py_int_below _ Hfwd Hnot) as (n & Hn & Hrange).
  unfold time_left. rewrite Hn. cbv zeta. unfold TOTAL_TIME_int.
  eexists _, _. split; [reflexivity|].
  assert (Hr : (1 <= 300 - n <= 300)%Z) by lia.
  pose proof (Z.mod_pos_bound (300 - n) 60 ltac:(lia)) as Hmod.
  pose proof (Z.div_mod (300 - n) 60 ltac:(lia)) as Hdiv.
  assert (Hq : (0 <= (300 - n) / 60 <= 5)%Z)
    by (split; [apply Z.div_pos|apply Z.div_le_upper_bound]; lia).
  split; [exact Hq|]. split; [lia|]. split; [lia|].
  apply time_label_length, Hr.
Qed.

Lemma time_left_on_rendered_frame_witness :
  exists minutes_left seconds_left,
    time_left (now_total (frame_at 1075.5) - start_time running_session)
    = Some (minutes_left, seconds_left) /\
    (0 <= minutes_left <= 5)%Z /\
    (0 <= seconds_left <= 59)%Z /\
    (1 <= 60 * minutes_left + seconds_left <= 300)%Z /\
    String.length (time_label minutes_left seconds_left) = 4%nat.
Proof.
  apply (time_left_on_rendered_frame running_session (frame_at 1075.5));
    vm_compute; reflexivity.
Defined.

Lemma py_str_negative (z : Z) :
  (z < 0)%Z -> exists rest, py_str z = String "-"%char rest.
Proof.
  destruct z as [|p|p]; try lia. intros _.
  eexists. reflexivity.
Qed.

(** X8: the header's time left is not clamped: on a script run whose clock
    is 301 seconds or more past the session start (the session is over and
    was not started again), the minutes shown are negative while the
    seconds stay within 0..59, so the text begins with a minus sign. *)
Theorem header_time_left_goes_negative :
  forall (s : session_state) (now : float),
    (301 <=? now - start_time s) = true ->
    int_returns (now - start_time s) = true ->
    exists minutes_left seconds_left,
      header_time_left s now = Some (minutes_left, seconds_left) /\
      (minutes_left < 0)%Z /\
      (0 <= seconds_left <= 59)%Z /\
      exists rest, time_label minutes_left seconds_left = String "-"%char rest.
Proof.
  intros s now Hlate Hfin.
  destruct (py_int_above _ Hlate Hfin) as (n & Hn & Hge).
  unfold header_time_left, time_left. rewrite Hn. cbv zeta.
  unfold TOTAL_TIME_int.
  eexists _, _. split; [reflexivity|].
  pose proof (Z.mod_pos_bound (300 - n) 60 ltac:(lia)) as Hmod.
  assert (Hneg : ((300 - n) / 60 < 0)%Z)
    by (apply Z.div_lt_upper_bound; lia).
  repeat split; try lia.
  destruct (py_str_negative _ Hneg) as [rest Hrest].
  unfold time_label. rewrite Hrest. eexists. reflexivity.
Qed.

Lemma header_time_left_goes_negative_witness :
  exists minutes_left seconds_left,
    header_time_left running_session 1301
    = Some (minutes_left, seconds_left) /\
    (minutes_left < 0)%Z /\
    (0 <= seconds_left <= 59)%Z /\
    exists rest, time_label minutes_left seconds_left = String "-"%char rest.
Proof.
  apply (header_time_left_goes_negative running_session 1301);
    vm_compute; reflexivity.
Defined.

(** * Properties of the report text *)

(** ** Stripping and splitting *)

Lemma space_is_not_bar (c : N) : is_space c = true -> (BAR =? c)%N = false.
Proof.
  intros Hc. destruct (N.eqb_spec BAR c) as [<-|]; [|reflexivity].
  discriminate Hc.
Qed.

Lemma lstrip_has_bar (s : pystr) : has_bar (lstrip s) = has_bar s.
Proof.
  induction s as [|c rest IH]; [reflexivity|].
  cbn [lstrip]. destruct (is_space c) eqn:Hc; [|reflexivity].
  rewrite IH. unfold has_bar. cbn [existsb].
  now rewrite (space_is_not_bar c Hc).
Qed.

Lemma has_bar_app (a b : pystr) :
  has_bar (a ++ b) = has_bar a || has_bar b.
Proof. apply existsb_app. Qed.

Lemma has_bar_rev (s : pystr) : has_bar (rev s) = has_bar s.
Proof.
  induction s as [|c rest IH]; [reflexivity|].
  cbn [rev]. rewrite has_bar_app, IH. unfold has_bar. cbn [existsb].
  rewrite orb_false_r. apply orb_comm.
Qed.

Lemma has_bar_strip (s : pystr) : has_bar (strip s) = has_bar s.
Proof.
  unfold strip, rstrip.
  now rewrite has_bar_rev, lstrip_has_bar, has_bar_rev, lstrip_has_bar.
Qed.

Lemma lstrip_idem (s : pystr) : lstrip (lstrip s) = lstrip s.
Proof.
  induction s as [|c rest IH]; [reflexivity|].
  cbn [lstrip]. destruct (is_space c) eqn:Hc; [exact IH|].
  cbn [lstrip]. now rewrite Hc.
Qed.

Lemma lstrip_length (s : pystr) :
  (List.length (lstrip s) <= List.length s)%nat.
Proof.
  induction s as [|c rest IH]; [apply le_n|].
  cbn [lstrip]. destruct (is_space c); [|apply le_n].
  cbn [List.length]. apply le_S, IH.
Qed.

Lemma lstrip_fixed_head (c : N) (rest : pystr) :
  lstrip (c :: rest) = c :: rest -> is_space c = false.
Proof.
  cbn [lstrip]. destruct (is_space c); [|reflexivity].
  intros H. pose proof (lstrip_length rest) as Hl. rewrite H in Hl.
  cbn [List.length] in Hl. lia.
Qed.

Lemma lstrip_keeps (c : N) (rest : pystr) :
  is_space c = false -> lstrip (c :: rest) = c :: rest.
Proof. intros Hc. cbn [lstrip]. now rewrite Hc. Qed.

(** What [lstrip] removes is white space. *)
Lemma lstrip_split (s : pystr) :
  exists spaces, s = spaces ++ lstrip s /\ forallb is_space spaces = true.
Proof.
  induction s as [|c rest (spaces & Hs & Hall)].
  - exists []. split; reflexivity.
  - cbn [lstrip]. destruct (is_space c) eqn:Hc.
    + exists (c :: spaces). cbn [app forallb]. rewrite Hc, Hall.
      split; [now rewrite <- Hs|reflexivity].
    + exists []. split; reflexivity.
Qed.

Lemma rstrip_split (s : pystr) :
  exists spaces, s = rstrip s ++ spaces /\ forallb is_space spaces = true.
Proof.
  destruct (lstrip_split (rev s)) as (spaces & Hs & Hall).
  exists (rev spaces). unfold rstrip. split.
  - rewrite <- rev_app_distr, <- Hs. symmetry. apply rev_involutive.
  - rewrite forallb_forall in *. intros x Hx. apply Hall.
    now apply in_rev.
Qed.

Lemma rstrip_idem (s : pystr) : rstrip (rstrip s) = rstrip s.
Proof. unfold rstrip. now rewrite rev_involutive, lstrip_idem. Qed.

Lemma rstrip_app_space (s : pystr) (c : N) :
  is_space c = true -> rstrip (s ++ [c]) = rstrip s.
Proof.
  intros Hc. unfold rstrip. rewrite rev_app_distr. cbn [rev app lstrip].
  now rewrite Hc.
Qed.

(** [rstrip] does not touch the left end of a string without white space
    there. *)
Lemma lstrip_rstrip (s : pystr) :
  lstrip s = s -> lstrip (rstrip s) = rstrip s.
Proof.
  intros Hfix. destruct (rstrip_split s) as (spaces & Hs & _).
  destruct (rstrip s) as [|c u]; [reflexivity|].
  apply lstrip_keeps. rewrite Hs in Hfix. cbn [app] in Hfix.
  exact (lstrip_fixed_head c _ Hfix).
Qed.

Lemma strip_is_stripped (s : pystr) :
  lstrip (strip s) = strip s /\ rstrip (strip s) = strip s.
Proof.
  unfold strip. split.
  - apply lstrip_rstrip, lstrip_idem.
  - apply rstrip_idem.
Qed.

Lemma strip_stripped (s : pystr) :
  lstrip s = s -> rstrip s = s -> strip s = s.
Proof. unfold strip. now intros -> ->. Qed.

Lemma split_not_nil (sep : N) (s : pystr) : split sep s <> [].
Proof.
  destruct s as [|c rest]; cbn [split]; [discriminate|].
  destruct (c =? sep)%N; [discriminate|].
  destruct (split sep rest); discriminate.
Qed.

Lemma split_pieces (sep : N) (s : pystr) :
  Forall (fun piece => existsb (N.eqb sep) piece = false) (split sep s).
Proof.
  induction s as [|c rest IH]; cbn [split].
  - repeat constructor.
  - destruct (N.eqb_spec c sep) as [->|Hne].
    + constructor; [reflexivity|exact IH].
    + destruct (split sep rest) as [|piece pieces];
        [repeat constructor; cbn; rewrite orb_false_r;
         now apply N.eqb_neq, not_eq_sym|].
      inversion IH as [|? ? Hp Hps]; subst.
      constructor; [|exact Hps]. cbn [existsb]. rewrite Hp, orb_false_r.
      now apply N.eqb_neq, not_eq_sym.
Qed.

Lemma split_app_sep (sep : N) (piece rest : pystr) :
  existsb (N.eqb sep) piece = false ->
  split sep (piece ++ sep :: rest) = piece :: split sep rest.
Proof.
  induction piece as [|c piece IH]; intros Hno; cbn [app split].
  - now rewrite N.eqb_refl.
  - cbn [existsb] in Hno. apply orb_false_elim in Hno.
    destruct Hno as [Hc Hp]. rewrite N.eqb_sym, Hc, (IH Hp).
    reflexivity.
Qed.
(** ** Table blocks *)

Lemma row_cells_clean (row : pystr) : Forall clean_cell (row_cells row).
Proof.
  unfold row_cells. apply Forall_map, Forall_forall.
  intros piece Hin. apply filter_In in Hin. destruct Hin as [Hin Hne].
  pose proof (split_pieces BAR row) as Hp.
  rewrite Forall_forall in Hp. specialize (Hp piece Hin).
  destruct (strip_is_stripped piece) as [Hl Hr].
  repeat split; try assumption.
  - intros Hnil. rewrite Hnil in Hne. discriminate.
  - rewrite has_bar_strip. exact Hp.
Qed.

Lemma table_block_clean (lines : list pystr) :
  clean_rows (fst (table_block lines)).
Proof.
  unfold clean_rows.
  induction lines as [|line rest IH]; cbn [table_block fst];
    [constructor|].
  destruct (has_bar (strip line)); [|constructor].
  destruct (table_block rest) as [data remaining]. cbn [fst] in IH.
  destruct (is_separator (strip line)); [exact IH|].
  pose proof (row_cells_clean (strip line)) as Hc.
  destruct (row_cells (strip line)) as [|cell cells]; [exact IH|].
  cbn [fst]. constructor; [|exact IH]. split; [discriminate|exact Hc].
Qed.

Lemma table_block_remaining (lines : list pystr) :
  (List.length (snd (table_block lines)) <= List.length lines)%nat.
Proof.
  induction lines as [|line rest IH]; cbn [table_block]; [apply le_n|].
  destruct (has_bar (strip line)); [|apply le_n].
  destruct (table_block rest) as [data remaining]. cbn [snd] in IH.
  assert (Hle : (List.length remaining
                 <= List.length (line :: rest))%nat)
    by (cbn [List.length]; lia).
  destruct (is_separator (strip line)); [exact Hle|].
  destruct (row_cells (strip line)); exact Hle.
Qed.

(** A block that starts consumes its first line. *)
Lemma table_block_advances (line : pystr) (rest : list pystr) :
  has_bar (strip line) = true ->
  (List.length (snd (table_block (line :: rest))) <= List.length rest)%nat.
Proof.
  intros Hbar. cbn [table_block]. rewrite Hbar.
  pose proof (table_block_remaining rest) as Hle.
  destruct (table_block rest) as [data remaining]. cbn [snd] in Hle.
  destruct (is_separator (strip line)); [exact Hle|].
  destruct (row_cells (strip line)); exact Hle.
Qed.

(** ** The outer loop ends within its fuel *)

Lemma story_lines_fuel (n : nat) :
  forall (lines : list pystr) (f1 f2 : nat),
    (List.length lines <= n)%nat -> (n <= f1)%nat -> (n <= f2)%nat ->
    story_lines f1 lines = story_lines f2 lines.
Proof.
  induction n as [|n IH]; intros lines f1 f2 Hlen H1 H2.
  - destruct lines; [|cbn in Hlen; lia].
    destruct f1, f2; reflexivity.
  - destruct lines as [|line rest]; [destruct f1, f2; reflexivity|].
    destruct f1 as [|f1]; [lia|]. destruct f2 as [|f2]; [lia|].
    cbn [List.length] in Hlen.
    assert (Hrest : story_lines f1 rest = story_lines f2 rest)
      by (apply IH; lia).
    cbn [story_lines]. cbv zeta.
    destruct (is_empty (strip line)); [now rewrite Hrest|].
    destruct (has_bar (strip line)) eqn:Hbar; cbn [andb];
      [|now rewrite Hrest].
    destruct (match rest with
              | next :: _ => has_bar next
              | [] => false
              end); [|now rewrite Hrest].
    pose proof (table_block_advances line rest Hbar) as Hadv.
    destruct (table_block (line :: rest)) as [data remaining].
    cbn [snd] in Hadv. f_equal. apply IH; lia.
Qed.

Lemma lines_flowables_nil : lines_flowables [] = [].
Proof. reflexivity. Qed.

(** One iteration of the outer loop. *)
Lemma lines_flowables_cons (line : pystr) (rest : list pystr) :
  lines_flowables (line :: rest) =
    if is_empty (strip line) then Spacer 1 8 :: lines_flowables rest
    else if has_bar (strip line)
            && match rest with
               | next :: _ => has_bar next
               | [] => false
               end
    then table_flowables (fst (table_block (line :: rest)))
         ++ lines_flowables (snd (table_block (line :: rest)))
    else Paragraph (strip line) normal_style :: lines_flowables rest.
Proof.
  unfold lines_flowables. cbn [List.length story_lines]. cbv zeta.
  destruct (is_empty (strip line)); [reflexivity|].
  destruct (has_bar (strip line)) eqn:Hbar; cbn [andb]; [|reflexivity].
  destruct (match rest with
            | next :: _ => has_bar next
            | [] => false
            end); [|reflexivity].
  pose proof (table_block_advances line rest Hbar) as Hadv.
  destruct (table_block (line :: rest)) as [data remaining].
  cbn [fst snd] in *. f_equal.
  apply (story_lines_fuel (List.length remaining)); lia.
Qed.

(** Induction along the iterations of the outer loop. *)
Lemma lines_flowables_ind (P : list pystr -> Prop) :
  P [] ->
  (forall line rest,
      P rest ->
      (has_bar (strip line) = true ->
       P (snd (table_block (line :: rest)))) ->
      P (line :: rest)) ->
  forall lines, P lines.
Proof.
  intros Hnil Hcons lines.
  assert (H : forall n l, (List.length l <= n)%nat -> P l).
  { induction n as [|n IH]; intros l Hl.
    - destruct l; [exact Hnil|cbn in Hl; lia].
    - destruct l as [|line rest]; [exact Hnil|].
      cbn [List.length] in Hl. apply Hcons; [apply IH; lia|].
      intros Hbar. apply IH.
      pose proof (table_block_advances line rest Hbar). lia. }
  exact (H _ _ (le_n _)).
Qed.
(** ** The story *)

Lemma lines_tables_clean (lines : list pystr) :
  forall data, In (Table data) (lines_flowables lines) ->
               data <> [] /\ clean_rows data.
Proof.
  induction lines as [|line rest IHrest IHblock] using lines_flowables_ind;
    intros data Hin.
  - contradiction.
  - rewrite lines_flowables_cons in Hin.
    destruct (is_empty (strip line)).
    + destruct Hin as [Hin|Hin]; [discriminate|now apply IHrest].
    + destruct (has_bar (strip line)) eqn:Hbar; cbn [andb] in Hin.
      * destruct (match rest with
                  | next :: _ => has_bar next
                  | [] => false
                  end).
        -- apply in_app_or in Hin. destruct Hin as [Hin|Hin];
             [|now apply (IHblock eq_refl)].
           pose proof (table_block_clean (line :: rest)) as Hclean.
           destruct (fst (table_block (line :: rest))) as [|row rows];
             [contradiction|].
           destruct Hin as [Hin|[Hin|[]]]; [|discriminate].
           injection Hin as <-. split; [discriminate|exact Hclean].
        -- destruct Hin as [Hin|Hin]; [discriminate|now apply IHrest].
      * destruct Hin as [Hin|Hin]; [discriminate|now apply IHrest].
Qed.

(** X9: every table the story holds has at least one row, every row at
    least one cell, and every cell is a non-empty text without a bar and
    without white space at either end, whatever the text and the
    picture. *)
Theorem story_tables_are_clean :
  forall (text_content : pystr) (image_bytes : option (list N))
         (data : list (list pystr)),
    In (Table data) (story text_content image_bytes) ->
    data <> [] /\ clean_rows data.
Proof.
  intros text_content image_bytes data Hin. unfold story in Hin.
  apply in_app_or in Hin. destruct Hin as [[Hin|[Hin|[]]]|Hin];
    try discriminate.
  apply in_app_or in Hin. destruct Hin as [Hin|Hin].
  - destruct image_bytes as [[|b bs]|]; try contradiction.
    destruct Hin as [Hin|[Hin|[]]]; discriminate.
  - exact (lines_tables_clean _ _ Hin).
Qed.

Lemma story_tables_are_clean_witness :
  [[codes "Sign"; codes "Seen"]; [codes "Blink rate"; codes "low"]] <> []
  /\ clean_rows
       [[codes "Sign"; codes "Seen"]; [codes "Blink rate"; codes "low"]].
Proof.
  apply (story_tables_are_clean
           (codes "| Sign | Seen |" ++ NEWLINE :: codes "|------|:----:|"
            ++ NEWLINE :: codes "| Blink rate | low |") None).
  vm_compute. right. right. left. reflexivity.
Defined.







(** ** Markdown tables *)

Lemma rstrip_keeps (s : pystr) (c : N) :
  is_space c = false -> rstrip (s ++ [c]) = s ++ [c].
Proof.
  intros Hc. unfold rstrip. rewrite rev_app_distr. cbn [rev app lstrip].
  rewrite Hc. change (c :: rev s) with (rev [c] ++ rev s).
  now rewrite <- rev_app_distr, rev_involutive.
Qed.

Lemma padded_cell (cell : pystr) :
  SPACE :: cell ++ [SPACE; BAR] = (SPACE :: cell ++ [SPACE]) ++ [BAR].
Proof. cbn [app]. now rewrite <- app_assoc. Qed.

Lemma padded_cells_end (cells : list pystr) :
  cells <> [] ->
  exists body,
    List.concat (map (fun cell => SPACE :: cell ++ [SPACE; BAR]) cells)
    = body ++ [BAR].
Proof.
  induction cells as [|cell cells IH]; intros Hne; [contradiction|].
  cbn [map List.concat]. rewrite padded_cell.
  destruct cells as [|next cells'].
  - exists (SPACE :: cell ++ [SPACE]). cbn [map List.concat].
    now rewrite app_nil_r.
  - destruct IH as (body & ->); [discriminate|].
    exists (((SPACE :: cell ++ [SPACE]) ++ [BAR]) ++ body).
    now rewrite app_assoc.
Qed.

Lemma render_row_ends (cells : list pystr) :
  exists body, render_row cells = body ++ [BAR].
Proof.
  unfold render_row. destruct cells as [|cell cells]; [now exists []|].
  destruct (padded_cells_end (cell :: cells)) as (body & ->);
    [discriminate|].
  now exists (BAR :: body).
Qed.

Lemma strip_render_row (cells : list pystr) :
  strip (render_row cells) = render_row cells.
Proof.
  apply strip_stripped; [reflexivity|].
  destruct (render_row_ends cells) as (body & ->).
  now apply rstrip_keeps.
Qed.

Lemma clean_cell_head (cell : pystr) :
  clean_cell cell ->
  exists c rest, cell = c :: rest /\ is_space c = false.
Proof.
  intros (Hne & _ & Hl & _). destruct cell as [|c rest]; [contradiction|].
  exists c, rest. split; [reflexivity|exact (lstrip_fixed_head c rest Hl)].
Qed.

Lemma strip_padded (cell : pystr) :
  clean_cell cell -> strip (SPACE :: cell ++ [SPACE]) = cell.
Proof.
  intros Hclean. destruct (clean_cell_head cell Hclean) as (c & rest & -> & Hc).
  destruct Hclean as (_ & _ & _ & Hr). unfold strip.
  change (lstrip (SPACE :: (c :: rest) ++ [SPACE]))
    with (lstrip (c :: rest ++ [SPACE])).
  rewrite (lstrip_keeps c _ Hc).
  change (c :: rest ++ [SPACE]) with ((c :: rest) ++ [SPACE]).
  rewrite rstrip_app_space; [exact Hr|reflexivity].
Qed.

Lemma split_padded (cells : list pystr) :
  Forall clean_cell cells ->
  split BAR
        (List.concat (map (fun cell => SPACE :: cell ++ [SPACE; BAR]) cells))
  = map (fun cell => SPACE :: cell ++ [SPACE]) cells ++ [[]].
Proof.
  induction 1 as [|cell cells (_ & Hbar & _) _ IH]; [reflexivity|].
  cbn [map List.concat]. rewrite padded_cell, <- app_assoc.
  cbn [app].
  replace (SPACE :: (cell ++ [SPACE]) ++
           BAR :: List.concat
                    (map (fun cell0 => SPACE :: cell0 ++ [SPACE; BAR]) cells))
    with ((SPACE :: cell ++ [SPACE]) ++
          BAR :: List.concat
                   (map (fun cell0 => SPACE :: cell0 ++ [SPACE; BAR]) cells))
    by reflexivity.
  rewrite split_app_sep, IH; [reflexivity|].
  change (existsb (N.eqb BAR) (SPACE :: cell ++ [SPACE]))
    with (has_bar ([SPACE] ++ cell ++ [SPACE])).
  rewrite !has_bar_app, Hbar. reflexivity.
Qed.

Lemma cells_of_padded (cells : list pystr) :
  Forall clean_cell cells ->
  map strip
      (filter (fun cell => negb (is_empty (strip cell)))
              (map (fun cell => SPACE :: cell ++ [SPACE]) cells))
  = cells.
Proof.
  induction 1 as [|cell cells Hcell _ IH]; [reflexivity|].
  cbn [map filter]. rewrite (strip_padded cell Hcell).
  destruct (clean_cell_head cell Hcell) as (c & rest & Hcons & _).
  rewrite Hcons at 1. cbn [is_empty negb map].
  now rewrite (strip_padded cell Hcell), IH.
Qed.

(** Reading back a rendered row gives its cells. *)
Lemma row_cells_render_row (cells : list pystr) :
  Forall clean_cell cells -> row_cells (render_row cells) = cells.
Proof.
  intros Hclean. unfold row_cells, render_row.
  cbn [split]. rewrite N.eqb_refl, (split_padded cells Hclean).
  change (filter (fun cell => negb (is_empty (strip cell)))
            ([] :: map (fun cell => SPACE :: cell ++ [SPACE]) cells ++ [[]]))
    with (filter (fun cell => negb (is_empty (strip cell)))
            (map (fun cell => SPACE :: cell ++ [SPACE]) cells ++ [[]])).
  rewrite filter_app. cbn [filter strip lstrip rev rstrip is_empty negb app].
  rewrite app_nil_r. now apply cells_of_padded.
Qed.

Lemma has_bar_render_row (cells : list pystr) :
  has_bar (render_row cells) = true.
Proof. reflexivity. Qed.

Lemma forallb_concat {A : Type} (p : A -> bool) (ls : list (list A)) :
  forallb p (List.concat ls) = forallb (forallb p) ls.
Proof.
  induction ls as [|l ls IH]; [reflexivity|].
  cbn [List.concat forallb]. now rewrite forallb_app, IH.
Qed.

Lemma render_row_not_separator (cells : list pystr) :
  existsb has_content cells = true ->
  is_separator (render_row cells) = false.
Proof.
  intros Hcontent. unfold is_separator, render_row.
  cbn [is_empty negb andb forallb]. apply andb_false_intro2.
  rewrite forallb_concat.
  induction cells as [|cell cells IH]; [discriminate|].
  cbn [existsb] in Hcontent. cbn [map forallb].
  destruct (has_content cell) eqn:Hcell.
  - apply andb_false_intro1. apply andb_false_intro2.
    rewrite forallb_app. apply andb_false_intro1.
    unfold has_content in Hcell. apply existsb_exists in Hcell.
    destruct Hcell as (c & Hin & Hc). apply negb_true_iff in Hc.
    destruct (forallb separator_char cell) eqn:Hall; [|reflexivity].
    rewrite forallb_forall in Hall. rewrite (Hall c Hin) in Hc.
    discriminate.
  - apply andb_false_intro2, IH, Hcontent.
Qed.
Lemma table_block_row (cells : list pystr) (rest : list pystr) :
  table_row cells ->
  table_block (render_row cells :: rest) =
    (cells :: fst (table_block rest), snd (table_block rest)).
Proof.
  intros (Hclean & Hcontent). cbn [table_block].
  rewrite strip_render_row, has_bar_render_row.
  rewrite (render_row_not_separator cells Hcontent).
  rewrite (row_cells_render_row cells Hclean).
  destruct (table_block rest) as [data remaining].
  destruct cells as [|cell cells]; [discriminate|reflexivity].
Qed.

Lemma table_block_rows (rows : list (list pystr)) (rest : list pystr) :
  Forall table_row rows ->
  table_block (map render_row rows ++ rest) =
    (rows ++ fst (table_block rest), snd (table_block rest)).
Proof.
  induction 1 as [|cells rows Hrow _ IH]; cbn [map app].
  - now destruct (table_block rest).
  - rewrite (table_block_row cells _ Hrow), IH. reflexivity.
Qed.

Lemma table_block_passed_over (line : pystr) (rest : list pystr) :
  passed_over line = true ->
  table_block (line :: rest) = table_block rest.
Proof.
  unfold passed_over. intros H. apply andb_prop in H.
  destruct H as [Hbar Hskip]. cbn [table_block]. rewrite Hbar.
  destruct (table_block rest) as [data remaining].
  destruct (is_separator (strip line)); [reflexivity|].
  cbn [orb] in Hskip.
  destruct (row_cells (strip line)); [reflexivity|discriminate].
Qed.

Lemma table_block_stops (rest : list pystr) :
  match rest with
  | next :: _ => has_bar next = false
  | [] => True
  end ->
  table_block rest = ([], rest).
Proof.
  destruct rest as [|next rest']; [reflexivity|].
  intros Hno. cbn [table_block]. now rewrite has_bar_strip, Hno.
Qed.

(** X11: a Markdown table is read back cell by cell.  A header row, a
    separator line (any line the inner loop passes over) and body rows,
    written [| a | b |] with clean cells, followed by a line without a bar
    (or by nothing), give one table whose rows are the header and the body
    rows, then a spacer of height 12, then what the following lines give;
    the separator line leaves no row. *)
Theorem markdown_table_is_read_back :
  forall (header : list pystr) (separator : pystr)
         (body : list (list pystr)) (rest : list pystr),
    table_row header ->
    Forall table_row body ->
    passed_over separator = true ->
    match rest with
    | next :: _ => has_bar next = false
    | [] => True
    end ->
    lines_flowables
      (render_row header :: separator :: map render_row body ++ rest)
    = Table (header :: body) :: Spacer 1 12 :: lines_flowables rest.
Proof.
  intros header separator body rest Hheader Hbody Hsep Hrest.
  rewrite lines_flowables_cons, strip_render_row, has_bar_render_row.
  assert (Hbar : has_bar separator = true).
  { unfold passed_over in Hsep. apply andb_prop in Hsep.
    destruct Hsep as [Hbar _]. now rewrite has_bar_strip in Hbar. }
  rewrite Hbar. cbn [andb].
  destruct (render_row_ends header) as (start & Hstart).
  replace (is_empty (render_row header)) with false
    by (rewrite Hstart; now destruct start).
  rewrite (table_block_row header _ Hheader).
  rewrite (table_block_passed_over separator _ Hsep).
  rewrite (table_block_rows body rest Hbody).
  rewrite (table_block_stops rest Hrest). cbn [fst snd].
  now rewrite app_nil_r.
Qed.

Lemma markdown_table_is_read_back_witness :
  lines_flowables report_table
  = Table [[codes "Sign"; codes "Seen"]; [codes "Blink rate"; codes "low"]]
    :: Spacer 1 12 :: lines_flowables [codes "Drink water."].
Proof.
  apply (markdown_table_is_read_back
           [codes "Sign"; codes "Seen"] (codes "|------|:----:|")
           [[codes "Blink rate"; codes "low"]] [codes "Drink water."]).
  - split; [|reflexivity].
    repeat constructor; try discriminate.
  - repeat constructor; try discriminate.
  - reflexivity.
  - reflexivity.
Defined.

Lemma table_block_all_passed_over (block rest : list pystr) :
  forallb passed_over block = true ->
  table_block (block ++ rest) = table_block rest.
Proof.
  induction block as [|line block IH]; intros Hall; [reflexivity|].
  cbn [forallb] in Hall. apply andb_prop in Hall.
  destruct Hall as [Hline Hblock]. cbn [app].
  now rewrite (table_block_passed_over line _ Hline), IH.
Qed.

(** X12: a block of two or more consecutive lines with bars that are all
    separator rows or rows of blank cells leaves nothing in the story:
    no table, no paragraph and no spacer stand for these lines. *)
Theorem empty_table_block_vanishes :
  forall (first second : pystr) (block rest : list pystr),
    forallb passed_over (first :: second :: block) = true ->
    match rest with
    | next :: _ => has_bar next = false
    | [] => True
    end ->
    lines_flowables (first :: second :: block ++ rest)
    = lines_flowables rest.
Proof.
  intros first second block rest Hall Hrest.
  pose proof Hall as Hall'. cbn [forallb] in Hall'.
  apply andb_prop in Hall'. destruct Hall' as [H1 Hall'].
  apply andb_prop in Hall'. destruct Hall' as [H2 _].
  unfold passed_over in H1, H2.
  apply andb_prop in H1. destruct H1 as [H1 _].
  apply andb_prop in H2. destruct H2 as [H2 _].
  assert (Hfirst : is_empty (strip first) = false)
    by (destruct (strip first); [discriminate H1|reflexivity]).
  rewrite lines_flowables_cons, Hfirst.
  rewrite has_bar_strip in H2. rewrite H1, H2. cbn [andb].
  change (first :: second :: block ++ rest)
    with ((first :: second :: block) ++ rest).
  rewrite (table_block_all_passed_over _ rest Hall).
  now rewrite (table_block_stops rest Hrest).
Qed.

Lemma empty_table_block_vanishes_witness :
  lines_flowables
    (codes "|---|---|" :: codes "|  |  |" :: [] ++ [codes "Rest well."])
  = lines_flowables [codes "Rest well."].
Proof.
  apply (empty_table_block_vanishes
           (codes "|---|---|") (codes "|  |  |") [] [codes "Rest well."]);
    reflexivity.
Defined.

(** * Properties of the captured frames and the drop-down lists *)

(** ** [sorted] and [unique] *)

Section Sorting.
Context {A : Type} (leb : A -> A -> bool).
Hypothesis leb_total : forall x y, leb x y = true \/ leb y x = true.
Hypothesis leb_trans :
  forall x y z, leb x y = true -> leb y z = true -> leb x z = true.
Hypothesis leb_antisym :
  forall x y, leb x y = true -> leb y x = true -> x = y.

Let le (x y : A) : Prop := leb x y = true.

Lemma insert_sorted_perm (x : A) (l : list A) :
  Permutation (insert_sorted leb x l) (x :: l).
Proof.
  induction l as [|y rest IH]; cbn [insert_sorted]; [reflexivity|].
  destruct (leb x y); [reflexivity|].
  rewrite IH. apply perm_swap.
Qed.

Lemma py_sorted_perm (l : list A) : Permutation (py_sorted leb l) l.
Proof.
  induction l as [|x rest IH]; [reflexivity|].
  unfold py_sorted. cbn [fold_right]. fold (py_sorted leb rest).
  rewrite insert_sorted_perm. now constructor.
Qed.

Lemma insert_sorted_sorted (x : A) (l : list A) :
  StronglySorted le l -> StronglySorted le (insert_sorted leb x l).
Proof.
  induction 1 as [|y rest Hrest IH Hy]; cbn [insert_sorted].
  - repeat constructor.
  - destruct (leb x y) eqn:Hxy.
    + constructor; [now constructor|].
      constructor; [exact Hxy|].
      eapply Forall_impl; [|exact Hy]. intros z Hz.
      exact (leb_trans _ _ _ Hxy Hz).
    + constructor; [exact IH|].
      assert (Hyx : le y x) by (destruct (leb_total x y); congruence).
      eapply Permutation_Forall;
        [symmetry; apply insert_sorted_perm|].
      now constructor.
Qed.

Lemma py_sorted_sorted (l : list A) : StronglySorted le (py_sorted leb l).
Proof.
  induction l as [|x rest IH]; [constructor|].
  unfold py_sorted. cbn [fold_right]. now apply insert_sorted_sorted.
Qed.

(** There is one ascending arrangement of a list. *)
Lemma sorted_unique (l1 : list A) :
  forall l2, StronglySorted le l1 -> StronglySorted le l2 ->
             Permutation l1 l2 -> l1 = l2.
Proof.
  induction l1 as [|x l1 IH]; intros l2 H1 H2 Hperm.
  - now apply Permutation_nil in Hperm.
  - destruct l2 as [|y l2];
      [now apply Permutation_sym, Permutation_nil in Hperm|].
    inversion H1 as [|? ? H1' Hx]; subst.
    inversion H2 as [|? ? H2' Hy]; subst.
    assert (Hxy : x = y).
    { assert (Hinx : In x (y :: l2))
        by (eapply Permutation_in; [exact Hperm|now left]).
      assert (Hiny : In y (x :: l1))
        by (eapply Permutation_in;
            [symmetry; exact Hperm|now left]).
      destruct Hinx as [->|Hinx]; [reflexivity|].
      destruct Hiny as [->|Hiny]; [reflexivity|].
      rewrite Forall_forall in Hx, Hy.
      exact (leb_antisym _ _ (Hx _ Hiny) (Hy _ Hinx)). }
    subst y. f_equal. apply IH; try assumption.
    exact (Permutation_cons_inv Hperm).
Qed.

Lemma py_sorted_of_perm (l sorted : list A) :
  StronglySorted le sorted -> Permutation l sorted ->
  py_sorted leb l = sorted.
Proof.
  intros Hs Hperm. apply sorted_unique;
    [apply py_sorted_sorted|exact Hs|].
  now rewrite py_sorted_perm.
Qed.

(** Ascending without repetition is strictly ascending. *)
Lemma sorted_nodup_strict (l : list A) :
  StronglySorted le l -> NoDup l ->
  StronglySorted (fun x y => le x y /\ x <> y) l.
Proof.
  induction 1 as [|x rest Hrest IH Hx]; intros Hnd; [constructor|].
  inversion Hnd as [|? ? Hnotin Hnd']; subst.
  constructor; [now apply IH|].
  rewrite Forall_forall in *. intros y Hy. split; [now apply Hx|].
  intros ->. contradiction.
Qed.

End Sorting.

Section Unique.
Context {A : Type} (eqb : A -> A -> bool).
Hypothesis eqb_eq : forall x y, eqb x y = true <-> x = y.

Lemma unique_in (l : list A) (x : A) : In x (unique eqb l) <-> In x l.
Proof.
  induction l as [|y rest IH]; [reflexivity|].
  cbn [unique In]. rewrite filter_In, IH.
  destruct (eqb y x) eqn:Hyx.
  - apply eqb_eq in Hyx. subst. cbn. tauto.
  - cbn. split; [tauto|]. intros [->|Hin]; [now left|now right].
Qed.

Lemma unique_nodup (l : list A) : NoDup (unique eqb l).
Proof.
  induction l as [|y rest IH]; [constructor|].
  cbn [unique]. constructor.
  - rewrite filter_In. intros [_ Hy].
    assert (eqb y y = true) by now apply eqb_eq.
    rewrite H in Hy. discriminate.
  - now apply NoDup_filter.
Qed.

End Unique.

(** ** The order of strings *)

Lemma str_eqb_eq (a b : pystr) : str_eqb a b = true <-> a = b.
Proof.
  revert b. induction a as [|x a IH]; intros [|y b]; cbn [str_eqb];
    try (split; [discriminate|discriminate]); [tauto|].
  rewrite andb_true_iff, N.eqb_eq, IH.
  split; [intros [-> ->]; reflexivity|intros H; now injection H].
Qed.

Lemma str_leb_total (a b : pystr) :
  str_leb a b = true \/ str_leb b a = true.
Proof.
  revert b. induction a as [|x a IH]; intros [|y b]; cbn [str_leb]; auto.
  destruct (N.ltb_spec x y), (N.ltb_spec y x); auto; try lia.
  assert (x = y) by lia. subst. rewrite N.eqb_refl. apply IH.
Qed.

Lemma str_leb_trans (a b c : pystr) :
  str_leb a b = true -> str_leb b c = true -> str_leb a c = true.
Proof.
  revert b c. induction a as [|x a IH]; intros [|y b] [|z c];
    cbn [str_leb]; try discriminate; auto.
  destruct (N.ltb_spec x y), (N.ltb_spec y z), (N.ltb_spec x z);
    try reflexivity; try lia;
    destruct (N.eqb_spec x y), (N.eqb_spec y z), (N.eqb_spec x z);
    try discriminate; try lia; auto.
  apply IH.
Qed.

Lemma str_leb_antisym (a b : pystr) :
  str_leb a b = true -> str_leb b a = true -> a = b.
Proof.
  revert b. induction a as [|x a IH]; intros [|y b]; cbn [str_leb];
    try discriminate; auto.
  destruct (N.ltb_spec x y), (N.ltb_spec y x); try lia;
    destruct (N.eqb_spec x y), (N.eqb_spec y x);
    try discriminate; try lia.
  intros Hab Hba. subst. f_equal. now apply IH.
Qed.
(** ** The upload *)

Lemma starts_with_app (prefix rest : pystr) :
  starts_with prefix (prefix ++ rest) = true.
Proof.
  induction prefix as [|x prefix IH]; [reflexivity|].
  cbn [app starts_with]. now rewrite N.eqb_refl.
Qed.

Lemma ends_with_app (start suffix : pystr) :
  ends_with suffix (start ++ suffix) = true.
Proof. unfold ends_with. rewrite rev_app_distr. apply starts_with_app. Qed.

Lemma frame_name_is_jpg (i : nat) :
  ends_with (codes ".jpg") (frame_name i) = true.
Proof. unfold frame_name. rewrite !app_assoc. apply ends_with_app. Qed.

Lemma str_lt_trans (a b c : pystr) : str_lt a b -> str_lt b c -> str_lt a c.
Proof.
  intros [Hab Hne] [Hbc Hne']. split; [exact (str_leb_trans _ _ _ Hab Hbc)|].
  intros ->. apply Hne. now apply str_leb_antisym.
Qed.

Lemma ascending_sorted (l : list pystr) :
  ascending l = true -> StronglySorted str_lt l.
Proof.
  intros Hasc. apply Sorted_StronglySorted; [exact str_lt_trans|].
  induction l as [|a rest IH]; [constructor|].
  destruct rest as [|b rest'].
  - repeat constructor.
  - cbn [ascending] in Hasc. apply andb_prop in Hasc.
    destruct Hasc as [Hab Hrest]. apply andb_prop in Hab.
    destruct Hab as [Hle Hne]. constructor; [now apply IH|].
    constructor. split; [exact Hle|].
    intros Heq. apply str_eqb_eq in Heq. rewrite Heq in Hne. discriminate.
Qed.

Lemma strongly_sorted_firstn {A : Type} (R : A -> A -> Prop) (n : nat) :
  forall l, StronglySorted R l -> StronglySorted R (firstn n l).
Proof.
  induction n as [|n IH]; intros l Hl; [constructor|].
  destruct l as [|x rest]; [constructor|].
  inversion Hl as [|? ? Hrest Hx]; subst. cbn [firstn].
  constructor; [now apply IH|].
  rewrite Forall_forall in *. intros y Hy. apply Hx.
  rewrite <- (firstn_skipn n rest). apply in_or_app. now left.
Qed.

Lemma firstn_of_seq (n start len : nat) :
  (n <= len)%nat -> firstn n (seq start len) = seq start n.
Proof.
  revert start len. induction n as [|n IH]; intros start len Hn;
    [reflexivity|].
  destruct len as [|len]; [lia|].
  cbn [seq firstn]. f_equal. apply IH. lia.
Qed.

(** The names of up to a thousand frames, in the order of capture, are
    strictly ascending: three digits keep the order of the indices. *)
Lemma frame_names_sorted (n : nat) :
  (n <= 1000)%nat ->
  StronglySorted str_lt (map frame_name (seq 0 n)).
Proof.
  intros Hn.
  assert (Hall : ascending (map frame_name (seq 0 1000)) = true)
    by (vm_compute; reflexivity).
  apply ascending_sorted in Hall.
  replace (map frame_name (seq 0 n))
    with (firstn n (map frame_name (seq 0 1000))).
  - now apply strongly_sorted_firstn.
  - now rewrite firstn_map, firstn_of_seq.
Qed.
Lemma str_lt_sorted_leb (l : list pystr) :
  StronglySorted str_lt l ->
  StronglySorted (fun a b => str_leb a b = true) l.
Proof.
  induction 1 as [|x rest Hrest IH Hx]; constructor; [exact IH|].
  eapply Forall_impl; [|exact Hx]. now intros y [Hle _].
Qed.

Lemma str_lt_sorted_nodup (l : list pystr) :
  StronglySorted str_lt l -> NoDup l.
Proof.
  induction 1 as [|x rest Hrest IH Hx]; constructor; [|exact IH].
  intros Hin. rewrite Forall_forall in Hx.
  destruct (Hx x Hin) as [_ Hne]. now apply Hne.
Qed.

Lemma combine_fst {A B : Type} (l : list A) :
  forall (l' : list B), List.length l = List.length l' ->
                        map fst (combine l l') = l.
Proof.
  induction l as [|x l IH]; intros [|y l'] Hlen; try discriminate;
    [reflexivity|].
  cbn [combine map fst]. f_equal. apply IH. now injection Hlen.
Qed.

Lemma combine_snd {A B : Type} (l : list A) :
  forall (l' : list B), List.length l = List.length l' ->
                        map snd (combine l l') = l'.
Proof.
  induction l as [|x l IH]; intros [|y l'] Hlen; try discriminate;
    [reflexivity|].
  cbn [combine map snd]. f_equal. apply IH. now injection Hlen.
Qed.

Lemma js_zip_names (capturedFrames : list (list N)) :
  namelist (js_zip capturedFrames)
  = map frame_name (seq 0 (List.length capturedFrames)).
Proof.
  unfold namelist, js_zip. apply combine_fst.
  now rewrite !length_map, length_seq.
Qed.

Lemma js_zip_contents (capturedFrames : list (list N)) :
  map snd (js_zip capturedFrames) = map Some capturedFrames.
Proof.
  unfold js_zip. apply combine_snd.
  now rewrite !length_map, length_seq.
Qed.

(** In an archive without a repeated name every entry is read back. *)
Lemma zip_read_entry (a : archive) (name : pystr)
      (content : option (list N)) :
  NoDup (namelist a) -> In (name, content) a ->
  zip_read a name = content.
Proof.
  intros Hnd Hin. unfold zip_read.
  destruct (find (fun entry => str_eqb (fst entry) name) (rev a))
    as [[name' content']|] eqn:Hfind.
  - apply find_some in Hfind. destruct Hfind as [Hin' Heq].
    apply in_rev in Hin'. apply str_eqb_eq in Heq. cbn [fst] in Heq.
    subst name'. cbn [snd].
    clear -Hnd Hin Hin'. unfold namelist in Hnd.
    induction a as [|[n c] a IH]; [contradiction|].
    cbn [map fst] in Hnd. inversion Hnd as [|? ? Hnotin Hnd']; subst.
    destruct Hin as [Hin|Hin], Hin' as [Hin'|Hin'].
    + congruence.
    + injection Hin as -> _. exfalso. apply Hnotin.
      change name with (fst (name, content')). now apply in_map.
    + injection Hin' as -> _. exfalso. apply Hnotin.
      change name with (fst (name, content)). now apply in_map.
    + now apply IH.
  - exfalso. pose proof (find_none _ _ Hfind (name, content)) as Hnone.
    cbn [fst] in Hnone. rewrite <- in_rev in Hnone.
    specialize (Hnone Hin).
    assert (str_eqb name name = true) by now apply str_eqb_eq.
    congruence.
Qed.

Lemma read_all_entries (a : archive)
      (entries : list (pystr * option (list N)))
      (contents : list (list N)) :
  NoDup (namelist a) ->
  Forall (fun entry => In entry a) entries ->
  map snd entries = map Some contents ->
  read_all a (map fst entries) = Some contents.
Proof.
  intros Hnd Hall. revert contents.
  induction Hall as [|[name content] entries Hin _ IH];
    intros contents Hsnd.
  - destruct contents; [reflexivity|discriminate].
  - destruct contents as [|c contents]; [discriminate|].
    cbn [map fst snd] in Hsnd. injection Hsnd as -> Hsnd.
    cbn [map fst read_all].
    now rewrite (zip_read_entry a name (Some c) Hnd Hin), (IH _ Hsnd).
Qed.

(** X13: the frames come back as they were captured.  For 1 to 1000
    captured frames, the archive the browser builds, read with its entries
    in any order, is loaded as exactly the captured frames in the order of
    capture: every name ends in [.jpg], and the three-digit index makes
    the sorted names follow the indices. *)
Theorem captured_frames_round_trip :
  forall (capturedFrames : list (list N)) (zip_ref : archive),
    (1 <= List.length capturedFrames <= 1000)%nat ->
    Permutation zip_ref (js_zip capturedFrames) ->
    process_zip (Some zip_ref) = Loaded capturedFrames.
Proof.
  intros capturedFrames zip_ref [Hmin Hmax] Hperm.
  set (names := map frame_name (seq 0 (List.length capturedFrames))).
  assert (Hsorted : StronglySorted str_lt names)
    by (apply frame_names_sorted, Hmax).
  assert (Hnames : Permutation (namelist zip_ref) names).
  { unfold names. rewrite <- js_zip_names. unfold namelist.
    now apply Permutation_map. }
  assert (Hnodup : NoDup (namelist zip_ref)).
  { eapply Permutation_NoDup; [symmetry; exact Hnames|].
    now apply str_lt_sorted_nodup. }
  assert (Hjpg : filter (ends_with (codes ".jpg")) (namelist zip_ref)
                 = namelist zip_ref).
  { apply forallb_filter_id, forallb_forall. intros name Hin.
    apply (Permutation_in _ Hnames) in Hin.
    apply in_map_iff in Hin. destruct Hin as (i & <- & _).
    apply frame_name_is_jpg. }
  assert (Hfiles : py_sorted str_leb (namelist zip_ref) = names).
  { apply py_sorted_of_perm;
      [exact str_leb_total|exact str_leb_trans|exact str_leb_antisym
      |now apply str_lt_sorted_leb|exact Hnames]. }
  unfold process_zip. cbv zeta. rewrite Hjpg, Hfiles.
  assert (Hread : read_all zip_ref names = Some capturedFrames).
  { unfold names. rewrite <- js_zip_names.
    unfold namelist. apply read_all_entries;
      [exact Hnodup| |apply js_zip_contents].
    apply Forall_forall. intros entry Hin.
    now apply (Permutation_in _ (Permutation_sym Hperm)). }
  rewrite Hread. unfold names.
  destruct capturedFrames as [|frame frames]; [cbn in Hmin; lia|].
  reflexivity.
Qed.

Lemma captured_frames_round_trip_witness :
  process_zip
    (Some [(frame_name 1, Some [7%N]); (frame_name 2, Some [9%N]);
           (frame_name 0, Some [5%N])])
  = Loaded [[5%N]; [7%N]; [9%N]].
Proof.
  apply (captured_frames_round_trip [[5%N]; [7%N]; [9%N]]).
  - cbn. lia.
  - change (js_zip [[5%N]; [7%N]; [9%N]])
      with [(frame_name 0, Some [5%N]); (frame_name 1, Some [7%N]);
            (frame_name 2, Some [9%N])].
    apply Permutation_sym, (Permutation_cons_app [_; _] []).
    reflexivity.
Defined.

(** What [read_all] returns is what reading each name gives, and it
    fails only at a name whose entry cannot be read. *)
Lemma read_all_outcome (a : archive) (names : list pystr) :
  match read_all a names with
  | Some contents =>
      Forall2 (fun name content => zip_read a name = Some content)
              names contents
  | None => exists name, In name names /\ zip_read a name = None
  end.
Proof.
  induction names as [|name names IH]; cbn [read_all]; [constructor|].
  destruct (zip_read a name) as [content|] eqn:Hread.
  - destruct (read_all a names) as [contents|].
    + now constructor.
    + destruct IH as (bad & Hin & Hbad). exists bad. split; [now right|].
      exact Hbad.
  - exists name. split; [now left|exact Hread].
Qed.

(** X14: what the upload block makes of an archive it can open.  It
    reports that there is no JPG exactly when no name ends in [.jpg].
    It stores nothing and reports the exception exactly when one of the
    names ending in [.jpg] cannot be read.  Otherwise it stores what
    reading each of these names gives, in the sorted order of the names:
    as many frames as there are such names, so at least one (the first
    frame that lines 372 and 400 show is there). *)
Theorem upload_outcome :
  forall zip_ref : archive,
    let jpg := filter (ends_with (codes ".jpg")) (namelist zip_ref) in
    match process_zip (Some zip_ref) with
    | NoJpg => jpg = []
    | Loaded frames_bytes =>
        Forall2 (fun name content => zip_read zip_ref name = Some content)
                (py_sorted str_leb jpg) frames_bytes /\
        List.length frames_bytes = List.length jpg /\
        (1 <= List.length frames_bytes)%nat
    | ReadError =>
        exists name, In name jpg /\ zip_read zip_ref name = None
    end.
Proof.
  intros zip_ref jpg. unfold process_zip. cbv zeta. fold jpg.
  pose proof (py_sorted_perm str_leb jpg) as Hperm.
  destruct (py_sorted str_leb jpg) as [|name names] eqn:Hsorted.
  - now apply Permutation_nil.
  - pose proof (read_all_outcome zip_ref (name :: names)) as Hread.
    destruct (read_all zip_ref (name :: names)) as [contents|].
    + split; [exact Hread|].
      apply Forall2_length in Hread.
      rewrite <- Hread, (Permutation_length Hperm). cbn [List.length].
      split; [reflexivity|].
      rewrite <- (Permutation_length Hperm). cbn [List.length]. lia.
    + destruct Hread as (bad & Hin & Hbad). exists bad.
      split; [|exact Hbad]. exact (Permutation_in _ Hperm Hin).
Qed.

(** ** The drop-down lists *)

Lemma sorted_unique_strings (l : list pystr) :
  StronglySorted str_lt (py_sorted str_leb (unique str_eqb l)) /\
  forall x, In x (py_sorted str_leb (unique str_eqb l)) <-> In x l.
Proof.
  pose proof (py_sorted_perm str_leb (unique str_eqb l)) as Hperm.
  split.
  - apply (sorted_nodup_strict str_leb).
    + apply py_sorted_sorted; [exact str_leb_total|exact str_leb_trans].
    + eapply Permutation_NoDup; [symmetry; exact Hperm|].
      apply unique_nodup, str_eqb_eq.
  - intros x. rewrite <- (unique_in str_eqb str_eqb_eq l x).
    split; apply Permutation_in; [exact Hperm|symmetry; exact Hperm].
Qed.

Lemma dropna_in {A : Type} (cells : list (option A)) (x : A) :
  In x (dropna cells) <-> In (Some x) cells.
Proof.
  induction cells as [|[y|] cells IH]; cbn [dropna In].
  - reflexivity.
  - rewrite IH. split; intros [H|H]; auto.
    + left. now f_equal.
    + left. now injection H.
  - rewrite IH. split; [auto|]. intros [H|H]; [discriminate|exact H].
Qed.

Lemma cell_eqb_eq (cell : option pystr) (value : pystr) :
  cell_eqb cell value = true <-> cell = Some value.
Proof.
  destruct cell as [text|]; cbn [cell_eqb].
  - rewrite str_eqb_eq. split; [now intros ->|now intros [= ->]].
  - split; discriminate.
Qed.

Lemma get_countries_eq (df : data_frame) :
  get_countries df
  = py_sorted str_leb (unique str_eqb (dropna (map Country df))).
Proof. now destruct df. Qed.

Lemma get_cities_eq (df : data_frame) (c : N) (name : pystr) :
  get_cities df (Some (c :: name)) =
    py_sorted str_leb
      (unique str_eqb
         (dropna
            (map City
                 (filter (fun r => cell_eqb (Country r) (c :: name)) df)))).
Proof. now destruct df. Qed.

Lemma get_cities_no_name (df : data_frame) :
  get_cities df None = [] /\ get_cities df (@Some pystr []) = [].
Proof. now destruct df. Qed.

Lemma countries_offered (df : data_frame) (name : pystr) :
  In name (get_countries df) <->
  exists r, In r df /\ Country r = Some name.
Proof.
  rewrite get_countries_eq.
  destruct (sorted_unique_strings (dropna (map Country df))) as [_ Hin].
  rewrite Hin, dropna_in, in_map_iff.
  split; intros (r & H1 & H2); exists r; auto.
Qed.

Lemma cities_offered (df : data_frame) (country : option pystr)
      (city : pystr) :
  In city (get_cities df country) <->
  exists name r,
    country = Some name /\ name <> [] /\
    In r df /\ Country r = Some name /\ City r = Some city.
Proof.
  destruct country as [[|c name]|].
  - rewrite (proj2 (get_cities_no_name df)).
    cbn [In]. split; [intros []|].
    intros (name & r & Heq & Hne & _). congruence.
  - rewrite get_cities_eq.
    destruct (sorted_unique_strings
                (dropna
                   (map City
                        (filter (fun r => cell_eqb (Country r) (c :: name))
                                df))))
      as [_ Hin].
    rewrite Hin, dropna_in, in_map_iff. split.
    + intros (r & Hcity & Hr). apply filter_In in Hr.
      destruct Hr as [Hr Hc]. apply cell_eqb_eq in Hc.
      exists (c :: name), r. repeat split; auto. discriminate.
    + intros (name' & r & Heq & _ & Hr & Hc & Hcity).
      injection Heq as <-. exists r. split; [exact Hcity|].
      apply filter_In. split; [exact Hr|]. now apply cell_eqb_eq.
  - rewrite (proj1 (get_cities_no_name df)).
    cbn [In]. split; [intros []|]. now intros (name & r & Heq & _).
Qed.

(** X15: [get_countries] offers each country of the file once, in
    strictly ascending order of code points: a name is offered exactly
    when some row has it. *)
Theorem get_countries_lists_each_country_once :
  forall df : data_frame,
    StronglySorted str_lt (get_countries df) /\
    forall name,
      In name (get_countries df) <->
      exists r, In r df /\ Country r = Some name.
Proof.
  intros df. split; [|apply countries_offered].
  rewrite get_countries_eq. apply sorted_unique_strings.
Qed.

(** X16: [get_cities] offers, once each and in strictly ascending order,
    exactly the cities that the rows of the chosen country hold; a row
    whose city is missing adds none, so a country of the file can be
    left without a city.  It offers nothing when no country is chosen or
    the chosen name is empty, and a country for which it offers a city is
    one that [get_countries] offers. *)
Theorem get_cities_lists_the_cities_of_the_country :
  forall (df : data_frame) (country : option pystr),
    StronglySorted str_lt (get_cities df country) /\
    (forall city,
        In city (get_cities df country) <->
        exists name r,
          country = Some name /\ name <> [] /\
          In r df /\ Country r = Some name /\ City r = Some city) /\
    (forall name,
        country = Some name -> get_cities df country <> [] ->
        In name (get_countries df)).
Proof.
  intros df country. split; [|split].
  - destruct country as [[|c name]|].
    + rewrite (proj2 (get_cities_no_name df)). constructor.
    + rewrite get_cities_eq. apply sorted_unique_strings.
    + rewrite (proj1 (get_cities_no_name df)). constructor.
  - apply cities_offered.
  - intros name -> Hsome.
    destruct (get_cities df (Some name)) as [|city cities] eqn:Hcities;
      [contradiction|].
    assert (Hin : In city (get_cities df (Some name)))
      by (rewrite Hcities; now left).
    apply cities_offered in Hin.
    destruct Hin as (name' & r & Heq & _ & Hr & Hc & _).
    injection Heq as <-. apply countries_offered. now exists r.
Qed.

(** ** The ages *)

Lemma SFeqb_trans (a b c : spec_float) :
  SFeqb a b = true -> SFeqb b c = true -> SFeqb a c = true.
Proof.
  unfold SFeqb, SFcompare.
  change (PosDef.Pos.compare_cont Eq) with Pos.compare.
  destruct a as [sa|sa| |sa ma ea], b as [sb|sb| |sb mb eb],
           c as [sc|sc| |sc mc ec];
    try destruct sa; try destruct sb; try destruct sc;
    simpl; intros; try discriminate; try reflexivity; sf_cases.
Qed.

Lemma float_eqb_trans (a b c : float) :
  (a =? b)%float = true -> (b =? c)%float = true -> (a =? c)%float = true.
Proof. rewrite !FloatAxioms.eqb_spec. apply SFeqb_trans. Qed.

(** Equal floats have the same integer part. *)
Lemma py_int_eqb (a b : float) :
  (a =? b)%float = true -> py_int a = py_int b.
Proof.
  rewrite FloatAxioms.eqb_spec. unfold py_int, SFeqb, SFcompare.
  change (PosDef.Pos.compare_cont Eq) with Pos.compare.
  destruct (Prim2SF a) as [sa|sa| |sa ma ea],
           (Prim2SF b) as [sb|sb| |sb mb eb];
    try destruct sa; try destruct sb; try discriminate; try reflexivity.
  all: destruct (Z.compare_spec ea eb) as [->|?|?]; try discriminate.
  all: destruct (Pos.compare_spec ma mb) as [->|?|?]; try discriminate.
  all: reflexivity.
Qed.

Lemma float_eqb_refl (a : float) :
  is_nan a = false -> (a =? a)%float = true.
Proof. unfold is_nan. now intros H%negb_false_iff. Qed.

Lemma number_eqb_refl (x : number) : notna x = true -> number_eqb x x = true.
Proof.
  destruct x as [z|f]; cbn [notna number_eqb]; intros H.
  - apply Z.eqb_refl.
  - apply float_eqb_refl. now apply negb_true_iff.
Qed.

Lemma number_eqb_trans (x y z : number) :
  number_eqb x y = true -> number_eqb y z = true -> number_eqb x z = true.
Proof.
  destruct x as [a|a], y as [b|b], z as [c|c]; cbn [number_eqb];
    try discriminate.
  - rewrite !Z.eqb_eq. congruence.
  - apply float_eqb_trans.
Qed.

Lemma number_eqb_int (x y : number) :
  number_eqb x y = true -> number_int x = number_int y.
Proof.
  destruct x as [a|a], y as [b|b]; cbn [number_eqb number_int];
    try discriminate.
  - rewrite Z.eqb_eq. congruence.
  - apply py_int_eqb.
Qed.

Lemma unique_subset {A : Type} (eqb : A -> A -> bool) (l : list A) (x : A) :
  In x (unique eqb l) -> In x l.
Proof.
  induction l as [|y rest IH]; [auto|].
  cbn [unique In]. rewrite filter_In. intros [->|[Hin _]]; auto.
Qed.

(** Every cell has an equal one among the unique ones. *)
Lemma unique_numbers_cover (l : list number) (x : number) :
  In x l -> notna x = true ->
  exists y, In y (unique number_eqb l) /\ number_eqb y x = true.
Proof.
  intros Hin Hx. induction l as [|x0 rest IH]; [contradiction|].
  cbn [unique]. destruct Hin as [->|Hin].
  - exists x. split; [now left|now apply number_eqb_refl].
  - destruct (IH Hin) as (y & Hy & Hyx).
    destruct (number_eqb x0 y) eqn:H0.
    + exists x0. split; [now left|].
      exact (number_eqb_trans _ _ _ H0 Hyx).
    + exists y. split; [|exact Hyx]. right. apply filter_In.
      now rewrite H0.
Qed.

Lemma int_all_some (xs : list number) (zs : list Z) :
  int_all xs = Some zs ->
  forall z, In z zs <-> exists x, In x xs /\ number_int x = Some z.
Proof.
  revert zs. induction xs as [|x rest IH]; intros zs Hall z.
  - injection Hall as <-. split; [contradiction|now intros (x & [] & _)].
  - cbn [int_all] in Hall.
    destruct (number_int x) as [zx|] eqn:Hx; [|discriminate].
    destruct (int_all rest) as [zrest|]; [|discriminate].
    injection Hall as <-. cbn [In]. rewrite (IH zrest eq_refl z).
    split.
    + intros [<-|(y & Hy & Hz)]; [exists x; auto|exists y; auto].
    + intros (y & [<-|Hy] & Hz); [left; congruence|right; exists y; auto].
Qed.

Lemma int_all_none (xs : list number) :
  int_all xs = None -> exists x, In x xs /\ number_int x = None.
Proof.
  induction xs as [|x rest IH]; [discriminate|]. cbn [int_all].
  destruct (number_int x) as [zx|] eqn:Hx.
  - destruct (int_all rest) as [zrest|]; [discriminate|].
    intros _. destruct (IH eq_refl) as (y & Hy & Hnone).
    exists y. split; [now right|exact Hnone].
  - intros _. exists x. split; [now left|exact Hx].
Qed.

Lemma Z_leb_total (x y : Z) : (x <=? y)%Z = true \/ (y <=? x)%Z = true.
Proof. rewrite !Z.leb_le. lia. Qed.

Lemma Z_leb_trans (x y z : Z) :
  (x <=? y)%Z = true -> (y <=? z)%Z = true -> (x <=? z)%Z = true.
Proof. rewrite !Z.leb_le. lia. Qed.

Lemma strongly_sorted_impl {A : Type} (R R' : A -> A -> Prop)
      (l : list A) :
  (forall x y, R x y -> R' x y) ->
  StronglySorted R l -> StronglySorted R' l.
Proof.
  intros Himpl. induction 1 as [|x rest Hrest IH Hx]; constructor;
    [exact IH|].
  eapply Forall_impl; [|exact Hx]. intros y. apply Himpl.
Qed.

Lemma sorted_unique_ints (l : list Z) :
  StronglySorted Z.lt (py_sorted Z.leb (unique Z.eqb l)) /\
  forall z, In z (py_sorted Z.leb (unique Z.eqb l)) <-> In z l.
Proof.
  pose proof (py_sorted_perm Z.leb (unique Z.eqb l)) as Hperm.
  split.
  - assert (Hs : StronglySorted
                   (fun x y => (x <=? y)%Z = true /\ x <> y)
                   (py_sorted Z.leb (unique Z.eqb l))).
    { apply (sorted_nodup_strict Z.leb).
      - apply py_sorted_sorted; [exact Z_leb_total|exact Z_leb_trans].
      - eapply Permutation_NoDup; [symmetry; exact Hperm|].
        apply unique_nodup, Z.eqb_eq. }
    revert Hs. apply strongly_sorted_impl. intros x y [Hle Hne].
    apply Z.leb_le in Hle. lia.
  - intros z. rewrite <- (unique_in Z.eqb Z.eqb_eq l z).
    split; apply Permutation_in; [exact Hperm|symmetry; exact Hperm].
Qed.

Lemma unique_cells (df : data_frame) (y : number) :
  In y (filter notna (unique number_eqb (filter notna (map Number df)))) ->
  has_number df y.
Proof.
  intros Hy. apply filter_In in Hy. destruct Hy as [Hy Hna].
  apply unique_subset, filter_In in Hy. destruct Hy as [Hy _].
  apply in_map_iff in Hy. destruct Hy as (r & Hr & Hin).
  exists r. auto.
Qed.

Lemma get_numbers_eq (df : data_frame) :
  get_numbers_from_file df =
    match int_all
            (filter notna
               (unique number_eqb (filter notna (map Number df)))) with
    | Some ints => Some (py_sorted Z.leb (unique Z.eqb ints))
    | None => None
    end.
Proof. now destruct df. Qed.

(** X17: [get_numbers_from_file] offers the ages in strictly ascending
    order, each once: an integer is offered exactly when it is the integer
    part of a cell of the [Number] column that is not nan.  It raises
    (inside [int]) exactly when such a cell has no integer part, that is,
    when the column holds an infinity. *)
Theorem get_numbers_lists_each_age_once :
  forall df : data_frame,
    match get_numbers_from_file df with
    | Some ages =>
        StronglySorted Z.lt ages /\
        (forall z,
            In z ages <->
            exists x, has_number df x /\ number_int x = Some z) /\
        (forall x, has_number df x -> number_int x <> None)
    | None => exists x, has_number df x /\ number_int x = None
    end.
Proof.
  intros df.
  assert (Hcover : forall x, has_number df x ->
            exists y,
              In y (filter notna
                      (unique number_eqb (filter notna (map Number df))))
              /\ number_int y = number_int x).
  { intros x (r & Hr & Hx & Hna).
    destruct (unique_numbers_cover (filter notna (map Number df)) x)
      as (y & Hy & Hyx); [|exact Hna|].
    - apply filter_In. split; [|exact Hna]. rewrite <- Hx.
      now apply in_map.
    - exists y. split; [|now apply number_eqb_int].
      apply filter_In. split; [exact Hy|].
      apply unique_subset, filter_In in Hy. tauto. }
  rewrite get_numbers_eq.
  - destruct (int_all
                (filter notna
                   (unique number_eqb (filter notna (map Number df)))))
      as [ints|] eqn:Hints.
    + destruct (sorted_unique_ints ints) as [Hs Hin].
      split; [exact Hs|]. split.
      * intros z. rewrite Hin, (int_all_some _ _ Hints z). split.
        -- intros (y & Hy & Hz). exists y.
           split; [now apply unique_cells|exact Hz].
        -- intros (x & Hx & Hz). destruct (Hcover x Hx) as (y & Hy & Heq).
           exists y. split; [exact Hy|congruence].
      * intros x Hx Hnone. destruct (Hcover x Hx) as (y & Hy & Heq).
        assert (Hsome : exists z, number_int y = Some z).
        { clear -Hints Hy. revert ints Hints.
          induction (filter notna
                       (unique number_eqb (filter notna (map Number df))))
            as [|x0 rest IH]; intros ints Hints; [contradiction|].
          cbn [int_all] in Hints.
          destruct (number_int x0) as [z0|] eqn:H0; [|discriminate].
          destruct (int_all rest) as [zs|]; [|discriminate].
          destruct Hy as [<-|Hy]; [now exists z0|].
          now apply (IH Hy zs). }
        destruct Hsome as (z & Hz). congruence.
    + destruct (int_all_none _ Hints) as (y & Hy & Hnone).
      exists y. split; [now apply unique_cells|exact Hnone].
Qed.
